(** * worker-a1111: the RunPod handler in front of the AUTOMATIC1111 API

    A shallow embedding of [src/handler.py] and the properties of its four
    functions: [wait_for_service], [set_sd_model_checkpoint],
    [run_sd_inference] and [handler].

    Python values are an inductive type, dictionaries are finite maps with
    string keys, and every effect of the script (an HTTP call on the shared
    session, a [print], a [time.sleep]) is an event appended to a trace.  The
    local inference API is an oracle that answers each HTTP call from the
    trace up to and including that call. *)

From Stdlib Require Import ZArith List QArith Lia.
From Stdlib Require Import Floats.SpecFloat.
From stdpp Require Import gmap strings list fin_maps pretty.

Open Scope Z_scope.

(** ** Python values *)

(** JSON-shaped Python values.  [PFloat] holds a binary64 number in the
    Standard Library's specification format; [PDict] is a [dict] whose keys
    are strings, as [json.loads] produces them. *)
#[warnings="-register-all"]
Inductive pyval : Type :=
| PNone
| PBool (b : bool)
| PInt (z : Z)
| PFloat (f : spec_float)
| PStr (s : string)
| PList (l : list pyval)
| PDict (d : gmap string pyval).

(** [bool(v)]: the truth value Python's [if v:] and [a and b] test. *)
Definition truthy (v : pyval) : bool :=
  match v with
  | PNone => false
  | PBool b => b
  | PInt z => negb (Z.eqb z 0)
  | PFloat f => match f with S754_zero _ => false | _ => true end
  | PStr s => negb (String.eqb s "")
  | PList l => match l with [] => false | _ :: _ => true end
  | PDict d => negb (Nat.eqb (size d) 0)
  end.

(** [isinstance(v, (int, float))]; [bool] is a subclass of [int]. *)
Definition is_int_or_float (v : pyval) : bool :=
  match v with
  | PInt _ | PBool _ | PFloat _ => true
  | _ => false
  end.

(** [type(v).__name__]. *)
Definition type_name (v : pyval) : string :=
  match v with
  | PNone => "NoneType"
  | PBool _ => "bool"
  | PInt _ => "int"
  | PFloat _ => "float"
  | PStr _ => "str"
  | PList _ => "list"
  | PDict _ => "dict"
  end.

(** [needle in hay] on two strings. *)
Fixpoint str_contains (needle hay : string) : bool :=
  String.prefix needle hay ||
  match hay with
  | EmptyString => false
  | String _ rest => str_contains needle rest
  end.

(** ** Exceptions and HTTP responses *)

(** The three families the script's [except] clauses tell apart:
    [requests.exceptions.HTTPError], any other
    [requests.exceptions.RequestException], and every other [Exception]. *)
Inductive exn_class : Type := HTTPError | RequestException | OtherException.

(** What [response.json()] does: the decoded body, or a decoding error, which
    is a [RequestException] in the releases of [requests] that wrap it and a
    plain [ValueError] in the older ones. *)
Inductive json_outcome : Type :=
| JsonValue (v : pyval)
| JsonDecodeError (wrapped : bool) (msg : string).

Record response : Type := Response {
  status_code : Z;
  reason : string;
  url : string;
  text : string;
  json : json_outcome
}.

(** An exception: its family, [type(e).__name__], [str(e)] and the
    [response] attribute ([None] unless the raiser attached one). *)
Record exn : Type := Exn {
  exn_class_of : exn_class;
  exn_type : string;
  exn_str : string;
  exn_response : option response
}.

(** ** Effects *)

(** One observable step of the script. *)
Inductive event : Type :=
| EvPrint (line : string)
| EvGet (target : string) (timeout : Z)
| EvPost (target : string) (payload : pyval) (timeout : Z)
| EvSleep (seconds : Q).

(** What a call on [automatic_session] comes back with, after the mounted
    adapter has applied its retry policy. *)
Inductive http_outcome : Type :=
| Raises (e : exn)
| Responds (r : response).

(** The inference API (and the network in front of it): the outcome of an HTTP
    call given the trace that ends with the call. *)
Definition service : Type := list event -> http_outcome.

Inductive result (A : Type) : Type :=
| Ok (a : A)
| Raise (e : exn).
Arguments Ok {A} a.
Arguments Raise {A} e.

(** A computation reads the trace so far and returns it extended. *)
Definition M (A : Type) : Type := list event -> result A * list event.

Definition ret {A} (a : A) : M A := fun tr => (Ok a, tr).

Definition bind {A B} (c : M A) (k : A -> M B) : M B :=
  fun tr =>
    match c tr with
    | (Ok a, tr') => k a tr'
    | (Raise e, tr') => (Raise e, tr')
    end.

Definition raise {A} (e : exn) : M A := fun tr => (Raise e, tr).

(** [try: c except Exception as e: h e]. *)
Definition try_except {A} (c : M A) (h : exn -> M A) : M A :=
  fun tr =>
    match c tr with
    | (Ok a, tr') => (Ok a, tr')
    | (Raise e, tr') => h e tr'
    end.

Definition emit (ev : event) : M unit := fun tr => (Ok tt, tr ++ [ev]).

Definition print (line : string) : M unit := emit (EvPrint line).

Definition sleep (seconds : Q) : M unit := emit (EvSleep seconds).

Declare Scope py_scope.
Delimit Scope py_scope with py.
Notation "'let*' x ':=' c 'in' k" := (bind c (fun x => k))
  (at level 10, x name, c at level 99, k at level 200) : py_scope.
Notation "c ';;' k" := (bind c (fun _ => k))
  (at level 100, k at level 200, right associativity) : py_scope.
Open Scope py_scope.

(** ** What the interpreter and the libraries supply *)

(** Text the script obtains from Python itself and never computes: [repr] of
    floats and containers, the message of an exception the interpreter raises
    (by operation and operand) and [traceback.format_exc()]. *)
Class PyRuntime : Type := {
  repr_value : pyval -> string;
  interp_message : string -> pyval -> string;
  format_exc : exn -> string
}.

Section Script.

Context `{PyRuntime}.
Variable api : service.

(** [f"{v}"]. *)
Definition py_format (v : pyval) : string :=
  match v with
  | PStr s => s
  | PInt z => pretty z
  | PBool true => "True"
  | PBool false => "False"
  | PNone => "None"
  | _ => repr_value v
  end.

(** An exception raised by the interpreter while it runs the script. *)
Definition interp_error (ty op : string) (v : pyval) : exn :=
  Exn OtherException ty (interp_message op v) None.

(** [requests.Response.raise_for_status]: a 4xx or 5xx status raises an
    [HTTPError] that carries the response. *)
Definition is_error_status (r : response) : bool :=
  Z.leb 400 (status_code r) && Z.ltb (status_code r) 600.

Definition http_error_message (r : response) : string :=
  pretty (status_code r) +:+
  (if Z.ltb (status_code r) 500 then " Client Error: " else " Server Error: ") +:+
  reason r +:+ " for url: " +:+ url r.

Definition raise_for_status (r : response) : M unit :=
  if is_error_status r
  then raise (Exn HTTPError "HTTPError" (http_error_message r) (Some r))
  else ret tt.

(** [response.json()]. *)
Definition response_json (r : response) : M pyval :=
  match json r with
  | JsonValue v => ret v
  | JsonDecodeError true msg => raise (Exn RequestException "JSONDecodeError" msg None)
  | JsonDecodeError false msg => raise (Exn OtherException "JSONDecodeError" msg None)
  end.

(** A call on [automatic_session]: the request is recorded, then the service
    answers it. *)
Definition http_call (request : event) : M response :=
  fun tr =>
    let tr' := tr ++ [request] in
    match api tr' with
    | Raises e => (Raise e, tr')
    | Responds r => (Ok r, tr')
    end.

Definition session_get (target : string) (timeout : Z) : M response :=
  http_call (EvGet target timeout).

Definition session_post (target : string) (payload : pyval) (timeout : Z) : M response :=
  http_call (EvPost target payload timeout).

(** ** Module constants *)

Definition LOCAL_URL : string := "http://127.0.0.1:3000/sdapi/v1".

(** [Retry(total=15, backoff_factor=0.3, status_forcelist=[500, 502, 503, 504])]. *)
Record Retry : Type := {
  total : Z;
  backoff_factor : Q;
  status_forcelist : list Z
}.

Definition retries_config : Retry :=
  {| total := 15; backoff_factor := 3 # 10; status_forcelist := [500; 502; 503; 504] |}.

(** ** [wait_for_service] *)

Definition health_url : string := LOCAL_URL +:+ "/progress?skip_current_image=true".

Definition log_interval : Z := 15.

Definition check_interval_seconds : Q := 1 # 2.

Definition ready_line (service_name : string) : string :=
  service_name +:+ " is ready.".

(** The line an [except] clause of the loop prints for attempt [n]. *)
Definition not_ready_line (service_name : string) (n : Z) (e : exn) : string :=
  match exn_class_of e with
  | HTTPError | RequestException =>
      service_name +:+ " not ready yet (attempt " +:+ pretty n +:+
      "). Retrying... Error: " +:+ exn_type e
  | OtherException =>
      service_name +:+ " not ready yet (attempt " +:+ pretty n +:+
      "). Unexpected error: " +:+ exn_str e +:+ ". Retrying..."
  end.

(** [retries_count == 1 or retries_count % log_interval == 0]. *)
Definition logs_attempt (retries_count : Z) : bool :=
  Z.eqb retries_count 1 || Z.eqb (retries_count mod log_interval) 0.

(** The [try] block of the loop: one health check. *)
Definition health_check : M unit :=
  let* response := session_get health_url 10 in
  raise_for_status response.

(** One pass through the body of [while True]: [None] when the function
    returns, [Some n] when the loop goes round again with [retries_count = n]. *)
Definition wait_iteration (service_name : string) (retries_count : Z) : M (option Z) :=
  let* next :=
    try_except
      (health_check ;; print (ready_line service_name) ;; ret None)
      (fun e =>
         let retries_count := retries_count + 1 in
         (if logs_attempt retries_count
          then print (not_ready_line service_name retries_count e)
          else ret tt) ;;
         ret (Some retries_count)) in
  match next with
  | None => ret None
  | Some n => sleep check_interval_seconds ;; ret (Some n)
  end.

(** [while True], cut after [fuel] passes: [true] when the function has
    returned, [false] when it is still polling. *)
Fixpoint wait_loop (service_name : string) (fuel : nat) (retries_count : Z) : M bool :=
  match fuel with
  | O => ret false
  | S fuel' =>
      let* next := wait_iteration service_name retries_count in
      match next with
      | None => ret true
      | Some n => wait_loop service_name fuel' n
      end
  end.

Definition wait_for_service (fuel : nat) (target service_name : string) : M bool :=
  print ("Waiting for " +:+ service_name +:+ " at " +:+ target +:+ " to be ready...") ;;
  wait_loop service_name fuel 0.

(** ** [set_sd_model_checkpoint] *)

(** [v.get(key)]: a [dict] answers, anything else has no such method. *)
Definition method_get (v : pyval) (key : string) : M pyval :=
  match v with
  | PDict d => ret (default PNone (d !! key))
  | _ => raise (interp_error "AttributeError" "get" v)
  end.

(** [needle in v] for a string [needle]: substring of a string, element of a
    list, key of a dict; other values are not containers. *)
Definition str_in (needle : string) (v : pyval) : M bool :=
  match v with
  | PStr s => ret (str_contains needle s)
  | PList l =>
      ret (existsb (fun x => match x with PStr s => String.eqb needle s | _ => false end) l)
  | PDict d => ret (bool_decide (is_Some (d !! needle)))
  | _ => raise (interp_error "TypeError" "in" v)
  end.

Definition options_url : string := LOCAL_URL +:+ "/options".

Definition success_line (new_checkpoint : pyval) : string :=
  "Successfully set SD model checkpoint. Current API reports: " +:+ py_format new_checkpoint.

Definition warning_lines (model : string) (new_checkpoint : pyval) : list string :=
  [ "Warning: SD model checkpoint may not have been set as expected, or verification failed.";
    "  Requested: " +:+ model;
    "  API reports: " +:+ py_format new_checkpoint;
    "  Ensure '" +:+ model +:+
    "' is the correct name recognized by A1111 and is present in 'models/Stable-diffusion'." ].

Fixpoint print_all (lines : list string) : M unit :=
  match lines with
  | [] => ret tt
  | l :: ls => print l ;; print_all ls
  end.

(** The [try] block. *)
Definition set_checkpoint_body (model : string) : M unit :=
  let payload := PDict {[ "sd_model_checkpoint" := PStr model ]} in
  let* response := session_post options_url payload 60 in
  raise_for_status response ;;
  sleep 1 ;;
  let* read_back := session_get options_url 30 in
  let* current_options := response_json read_back in
  let* new_checkpoint := method_get current_options "sd_model_checkpoint" in
  let* verified :=
    (if truthy new_checkpoint then str_in model new_checkpoint else ret false) in
  if verified
  then print (success_line new_checkpoint)
  else print_all (warning_lines model new_checkpoint).

(** The three [except] clauses.  The first reads
    [http_err.response.status_code] without testing the attribute. *)
Definition set_checkpoint_except (model : string) (e : exn) : M unit :=
  match exn_class_of e with
  | HTTPError =>
      match exn_response e with
      | Some r =>
          print ("HTTP Error setting SD model checkpoint to '" +:+ model +:+ "': " +:+
                 pretty (status_code r)) ;;
          print ("Response body: " +:+ text r)
      | None => raise (interp_error "AttributeError" "status_code" PNone)
      end
  | RequestException =>
      print ("Request Error setting SD model checkpoint to '" +:+ model +:+ "': " +:+ exn_str e)
  | OtherException =>
      print ("An unexpected error occurred while setting model checkpoint '" +:+ model +:+
             "': " +:+ exn_str e)
  end.

Definition set_sd_model_checkpoint (model_title_or_filename : string) : M unit :=
  print ("Attempting to set SD model checkpoint to: " +:+ model_title_or_filename) ;;
  try_except (set_checkpoint_body model_title_or_filename)
             (set_checkpoint_except model_title_or_filename).

(** ** [run_sd_inference] *)

(** ["init_images" in inference_payload and inference_payload["init_images"]]. *)
Definition wants_img2img (inference_payload : gmap string pyval) : bool :=
  match inference_payload !! "init_images" with
  | Some v => truthy v
  | None => false
  end.

Definition api_endpoint (inference_payload : gmap string pyval) : string :=
  if wants_img2img inference_payload then "img2img" else "txt2img".

Definition full_api_url (inference_payload : gmap string pyval) : string :=
  LOCAL_URL +:+ "/" +:+ api_endpoint inference_payload.

Definition run_sd_inference (inference_payload : gmap string pyval) : M pyval :=
  let target := full_api_url inference_payload in
  print ("Sending request to AUTOMATIC1111 API: " +:+ target) ;;
  let* response := session_post target (PDict inference_payload) 600 in
  raise_for_status response ;;
  response_json response.

(** ** [handler] *)

(** [v[key]] for a string key. *)
Definition subscript (v : pyval) (key : string) : M pyval :=
  match v with
  | PDict d =>
      match d !! key with
      | Some x => ret x
      | None => raise (interp_error "KeyError" "getitem" (PStr key))
      end
  | _ => raise (interp_error "TypeError" "getitem" v)
  end.

(** [v.pop(key, fallback)]: the popped value and the dict without the key.
    A list has a [pop] of another arity, other values have none. *)
Definition method_pop (v : pyval) (key : string) (fallback : pyval)
  : M (pyval * gmap string pyval) :=
  match v with
  | PDict d => ret (default fallback (d !! key), delete key d)
  | PList _ => raise (interp_error "TypeError" "pop" v)
  | _ => raise (interp_error "AttributeError" "pop" v)
  end.

(** The items a [for] loop draws from [v].  The script only ever asks each
    item for [.get], which the characters of a string and the keys of a dict
    do not have. *)
Definition py_iter (v : pyval) : M (list pyval) :=
  match v with
  | PList l => ret l
  | PStr s => ret ((fun c => PStr (String c EmptyString)) <$> String.list_ascii_of_string s)
  | PDict d => ret ((fun kv => PStr kv.1) <$> map_to_list d)
  | _ => raise (interp_error "TypeError" "iter" v)
  end.

(** [left + right] where [right] is a string. *)
Definition add_str (left : pyval) (right : string) : M pyval :=
  match left with
  | PStr s => ret (PStr (s +:+ right))
  | _ => raise (interp_error "TypeError" "add" left)
  end.

(** [f" <lora:{lora_name}:{lora_weight}>"]. *)
Definition lora_tag (lora_name lora_weight : pyval) : string :=
  " <lora:" +:+ py_format lora_name +:+ ":" +:+ py_format lora_weight +:+ ">".

(** The body of [for lora_entry in loras_to_apply], threading
    [lora_prompt_segment]. *)
Definition lora_step (lora_prompt_segment : string) (lora_entry : pyval) : M string :=
  let* lora_name := method_get lora_entry "name" in
  let* lora_weight := method_get lora_entry "weight" in
  if truthy lora_name && is_int_or_float lora_weight
  then ret (lora_prompt_segment +:+ lora_tag lora_name lora_weight)
  else
    print ("Warning: Invalid or incomplete LoRA entry skipped: " +:+ py_format lora_entry) ;;
    ret lora_prompt_segment.

Fixpoint for_each {A S : Type} (body : S -> A -> M S) (items : list A) (s : S) : M S :=
  match items with
  | [] => ret s
  | x :: rest => let* s' := body s x in for_each body rest s'
  end.

Definition dquote : string := String (Ascii.ascii_of_nat 34) EmptyString.

(** The block between the LoRA Injection banners. *)
Definition inject_loras (job_input : gmap string pyval) (loras_to_apply current_prompt : pyval)
  : M (gmap string pyval) :=
  if truthy loras_to_apply then
    let* entries := py_iter loras_to_apply in
    let* lora_prompt_segment := for_each lora_step entries "" in
    if negb (String.eqb lora_prompt_segment "") then
      let* new_prompt := add_str current_prompt lora_prompt_segment in
      print ("Prompt modified with LoRAs. New prompt: " +:+ dquote +:+
             py_format new_prompt +:+ dquote) ;;
      ret (<["prompt" := new_prompt]> job_input)
    else ret job_input
  else ret job_input.

(** 7.0 as a binary64 number. *)
Definition float_7 : spec_float := S754_finite false 7881299347898368 (-50).

Definition defaults : list (string * pyval) :=
  [ ("steps", PInt 20);
    ("sampler_name", PStr "Euler a");
    ("cfg_scale", PFloat float_7);
    ("width", PInt 512);
    ("height", PInt 512);
    ("seed", PInt (-1));
    ("negative_prompt", PStr "") ].

(** [d.setdefault(key, value)]. *)
Definition setdefault (key : string) (value : pyval) (d : gmap string pyval)
  : gmap string pyval :=
  match d !! key with
  | Some _ => d
  | None => <[key := value]> d
  end.

(** [for key, value in defaults.items(): job_input.setdefault(key, value)]. *)
Definition apply_defaults (job_input : gmap string pyval) : gmap string pyval :=
  fold_left (fun d kv => setdefault kv.1 kv.2 d) defaults job_input.

(** Everything [handler] does before its [try]. *)
Definition prepare_payload (event : pyval) : M (gmap string pyval) :=
  let* job_input := subscript event "input" in
  let* popped := method_pop job_input "loras" (PList []) in
  let loras_to_apply := popped.1 in
  let job_input := popped.2 in
  let current_prompt := default (PStr "") (job_input !! "prompt") in
  let* job_input := inject_loras job_input loras_to_apply current_prompt in
  ret (apply_defaults job_input).

Definition error_result (error_message : string) (code : Z) : pyval :=
  PDict (<["error" := PStr error_message]> (<["status_code" := PInt code]> ∅)).

(** The three [except] clauses of [handler]. *)
Definition handler_except (e : exn) : M pyval :=
  match exn_class_of e with
  | HTTPError =>
      let error_message := "AUTOMATIC1111 API HTTP Error: " +:+ exn_str e in
      match exn_response e with
      | Some r =>
          let error_message :=
            error_message +:+ " - Status: " +:+ pretty (status_code r) +:+
            " - Response: " +:+ text r in
          print error_message ;;
          ret (error_result error_message (status_code r))
      | None =>
          print error_message ;;
          ret (error_result error_message 500)
      end
  | RequestException =>
      let error_message := "AUTOMATIC1111 API Request Error: " +:+ exn_str e in
      print error_message ;;
      ret (error_result error_message 503)
  | OtherException =>
      let error_message := "An unexpected error occurred in the handler: " +:+ exn_str e in
      print (format_exc e) ;;
      ret (error_result error_message 500)
  end.

Definition handler (event : pyval) : M pyval :=
  let* job_input := prepare_payload event in
  try_except (run_sd_inference job_input) handler_except.

(** ** Main execution, up to the start of the serverless worker *)

Definition checkpoint_model_filename : string := "Gemini_ILMixV5.safetensors".

Definition main (fuel : nat) : M bool :=
  print "Starting AUTOMATIC1111 RunPod Serverless Handler..." ;;
  let* ready := wait_for_service fuel LOCAL_URL "AUTOMATIC1111 WebUI API" in
  if ready then
    set_sd_model_checkpoint checkpoint_model_filename ;;
    print "AUTOMATIC1111 setup complete. Starting RunPod Serverless worker..." ;;
    ret true
  else ret false.

End Script.

(** * Reading traces *)

(** The POST requests of a trace, in order: target and JSON body. *)
Definition posts (tr : list event) : list (string * pyval) :=
  omap (fun ev => match ev with EvPost target p _ => Some (target, p) | _ => None end) tr.

Definition is_print (ev : event) : bool :=
  match ev with EvPrint _ => true | _ => false end.

Definition txt2img_url : string := LOCAL_URL +:+ "/txt2img".
Definition img2img_url : string := LOCAL_URL +:+ "/img2img".

(** [c] never looks at the trace and adds nothing but printed lines to it. *)
Definition prints_only {A} (c : M A) : Prop :=
  exists r lines, forallb is_print lines = true /\ forall tr, c tr = (r, tr ++ lines).

(** The line [run_sd_inference] prints before the request. *)
Definition sending_line (inference_payload : gmap string pyval) : string :=
  "Sending request to AUTOMATIC1111 API: " +:+ full_api_url inference_payload.

(** What [run_sd_inference] adds to the trace: one printed line, one POST. *)
Definition inference_events (inference_payload : gmap string pyval) : list event :=
  [ EvPrint (sending_line inference_payload);
    EvPost (full_api_url inference_payload) (PDict inference_payload) 600 ].

(** What a computation started on trace [h] added to it. *)
Definition emitted {A} (c : M A) (h : list event) : list event :=
  drop (length h) (c h).2.

(** * The payload transformation, as the specification words it *)

Section Vocabulary.

Context `{PyRuntime}.

(** The job input an event carries: [event["input"]], a dict. *)
Definition job_input_of (event : pyval) : option (gmap string pyval) :=
  match event with
  | PDict e =>
      match e !! "input" with
      | Some (PDict job_input) => Some job_input
      | _ => None
      end
  | _ => None
  end.

Definition is_dict (v : pyval) : bool :=
  match v with PDict _ => true | _ => false end.

(** The list of LoRA descriptors of a job input; none when there is no list. *)
Definition descriptors (job_input : gmap string pyval) : list pyval :=
  match job_input !! "loras" with
  | Some (PList l) => l
  | _ => []
  end.

(** A descriptor with a name and a numeric weight. *)
Definition named_and_weighted (descriptor : pyval) : bool :=
  match descriptor with
  | PDict d =>
      truthy (default PNone (d !! "name")) &&
      is_int_or_float (default PNone (d !! "weight"))
  | _ => false
  end.

(** Its inline tag. *)
Definition descriptor_tag (descriptor : pyval) : string :=
  match descriptor with
  | PDict d => lora_tag (default PNone (d !! "name")) (default PNone (d !! "weight"))
  | _ => EmptyString
  end.

Definition tags_of (ds : list pyval) : string :=
  foldr String.append EmptyString (descriptor_tag <$> List.filter named_and_weighted ds).

(** The prompt string, the empty string when no prompt is present. *)
Definition prompt_string (job_input : gmap string pyval) : string :=
  match job_input !! "prompt" with
  | Some (PStr s) => s
  | _ => EmptyString
  end.

(** Step one: the descriptor list leaves the payload and the tags of the
    named and weighted descriptors are appended to the prompt. *)
Definition move_loras_to_prompt (job_input : gmap string pyval) : gmap string pyval :=
  let rest := delete "loras" job_input in
  match List.filter named_and_weighted (descriptors job_input) with
  | [] => rest
  | _ :: _ => <["prompt" := PStr (prompt_string job_input +:+ tags_of (descriptors job_input))]> rest
  end.

(** Step two: a default for every generation parameter that is missing. *)
Definition fill_defaults (payload : gmap string pyval) : gmap string pyval :=
  payload ∪ list_to_map defaults.

Definition transformed_payload (job_input : gmap string pyval) : gmap string pyval :=
  fill_defaults (move_loras_to_prompt job_input).

(** The documented shape of a job input: ["loras"], when present, is a list
    of dicts, and ["prompt"], when present, is a string. *)
Definition well_formed_input (job_input : gmap string pyval) : bool :=
  match job_input !! "loras" with
  | None => true
  | Some (PList l) => forallb is_dict l
  | Some _ => false
  end &&
  match job_input !! "prompt" with
  | None | Some (PStr _) => true
  | Some _ => false
  end.

End Vocabulary.

(** What [run_sd_inference] makes of the service's answer to its POST:
    [raise_for_status] and then [json] on a response, the exception itself
    when the call raised. *)
Definition inference_result (answer : http_outcome) : result pyval :=
  match answer with
  | Raises e => Raise e
  | Responds r => (bind (raise_for_status r) (fun _ => response_json r) []).1
  end.

(** The status code by kind of failure: the upstream status of an HTTP error
    that carries a response, 500 for an HTTP error without one and for an
    unexpected exception, 503 for any other request error. *)
Definition status_for (e : exn) : Z :=
  match exn_class_of e, exn_response e with
  | HTTPError, Some r => status_code r
  | HTTPError, None => 500
  | RequestException, _ => 503
  | OtherException, _ => 500
  end.

(** The seven generation parameters that have a default. *)
Definition defaulted_keys : list string :=
  ["steps"; "sampler_name"; "cfg_scale"; "width"; "height"; "seed"; "negative_prompt"].

(** ** The readiness wait, as the specification words it *)

(** How a health check fails: the GET raised, or the status was 4xx or 5xx.
    [None] is a success response. *)
Definition health_failure (answer : http_outcome) : option exn :=
  match answer with
  | Raises e => Some e
  | Responds r =>
      if is_error_status r
      then Some (Exn HTTPError "HTTPError" (http_error_message r) (Some r))
      else None
  end.

Definition health_get : event := EvGet health_url 10.

(** The failed attempt number [k]: the check, a log line on the first attempt
    and on every fifteenth, the fixed sleep. *)
Definition failed_round (service_name : string) (k : Z) (e : exn) : list event :=
  health_get ::
  (if logs_attempt k then [EvPrint (not_ready_line service_name k e)] else []) ++
  [EvSleep check_interval_seconds].

(** Failed attempts [k], [k + 1], ... one after the other. *)
Fixpoint rounds (service_name : string) (k : Z) (failures : list exn) : list event :=
  match failures with
  | [] => []
  | e :: rest => failed_round service_name k e ++ rounds service_name (k + 1) rest
  end.

(** How the polling ends: with the successful check when the function
    returns, with nothing when it is still polling. *)
Definition ending (service_name : string) (returned : bool) : list event :=
  if returned then [health_get; EvPrint (ready_line service_name)] else [].

Definition waiting_line (target service_name : string) : string :=
  "Waiting for " +:+ service_name +:+ " at " +:+ target +:+ " to be ready...".

(** ** The checkpoint switch, as the specification words it *)

(** The request that asks for the switch, with the line printed before it. *)
Definition switch_request (model : string) : list event :=
  [ EvPrint ("Attempting to set SD model checkpoint to: " +:+ model);
    EvPost options_url (PDict {[ "sd_model_checkpoint" := PStr model ]}) 60 ].

(** The pause and the request that reads the configuration back. *)
Definition read_back_request : list event :=
  [ EvSleep 1; EvGet options_url 30 ].

(** The read-back value contains the requested name. *)
Definition contains_name (model : string) (v : pyval) : bool :=
  match v with
  | PStr s => str_contains model s
  | PList l => existsb (fun x => match x with PStr s => String.eqb model s | _ => false end) l
  | PDict d => bool_decide (is_Some (d !! model))
  | _ => false
  end.

(** A printed line that reports the switch as successful. *)
Definition reports_success (line : string) : bool :=
  String.prefix "Successfully set SD model checkpoint." line.

Section Verdict.

Context `{PyRuntime}.

(** What the verification prints for the options the read-back returned. *)
Definition verdict (model : string) (current_options : pyval) : M unit :=
  let* new_checkpoint := method_get current_options "sd_model_checkpoint" in
  let* verified :=
    (if truthy new_checkpoint then str_in model new_checkpoint else ret false) in
  if verified
  then print (success_line new_checkpoint)
  else print_all (warning_lines model new_checkpoint).

End Verdict.

(** A runtime for closed examples: every text the interpreter supplies is a
    fixed marker. *)
Definition marker_runtime : PyRuntime :=
  {| repr_value := fun _ => "<value>";
     interp_message := fun op _ => op;
     format_exc := fun e => exn_type e +:+ ": " +:+ exn_str e |}.

(** A service that answers every call with status 200 and an empty JSON object. *)
Definition healthy_api : service :=
  fun _ => Responds (Response 200 "OK" LOCAL_URL "{}" (JsonValue (PDict ∅))).

(** A job with a prompt, one caller-chosen parameter and two LoRA
    descriptors, the second without a weight. *)
Definition sample_job_input : gmap string pyval :=
  <["prompt" := PStr "a cat"]>
    (<["steps" := PInt 30]>
       (<["loras" := PList [ PDict (<["name" := PStr "detail"]> (<["weight" := PInt 1]> ∅));
                             PDict (<["name" := PStr "sketch"]> ∅) ]]> ∅)).

Definition sample_event : pyval :=
  PDict (<["id" := PStr "job-1"]> (<["input" := PDict sample_job_input]> ∅)).

(** What the preparation makes of the sample event. *)
Definition sample_payload : gmap string pyval :=
  transformed_payload (H := marker_runtime) sample_job_input.

Definition sample_logs : list event :=
  (prepare_payload (H := marker_runtime) sample_event []).2.

(** A job whose ["init_images"] entry is present and empty. *)
Definition empty_init_images_job : gmap string pyval :=
  <["init_images" := PList []]> (<["prompt" := PStr "a cat"]> ∅).

Definition empty_init_images_event : pyval :=
  PDict (<["input" := PDict empty_init_images_job]> ∅).

(** A service that answers every call with status 404. *)
Definition not_found_response : response :=
  Response 404 "Not Found" txt2img_url "{}" (JsonValue (PDict ∅)).

Definition not_found_api : service := fun _ => Responds not_found_response.

(** The [HTTPError] that [raise_for_status] raises on the 404 response. *)
Definition not_found_error : exn :=
  Exn HTTPError "HTTPError" (http_error_message not_found_response) (Some not_found_response).



(** A service whose configuration names the requested checkpoint, with the
    hash AUTOMATIC1111 appends to a title. *)
Definition switched_api : service :=
  fun _ =>
    Responds (Response 200 "OK" options_url "{}"
                (JsonValue (PDict {[ "sd_model_checkpoint" :=
                                       PStr "Gemini_ILMixV5.safetensors [6a1b2c3d4e]" ]}))).

(** A service that refuses the first sixteen calls it sees and answers the
    later ones. *)
Definition slow_start_api : service :=
  fun tr =>
    if (length (List.filter (fun ev => negb (is_print ev)) tr) <=? 31)%nat
    then Raises (Exn RequestException "ConnectionError" "connection refused" None)
    else healthy_api tr.

(** A job whose ["loras"] entry is a number. *)
Definition malformed_event : pyval :=
  PDict (<["input" := PDict (<["loras" := PInt 5]> ∅)]> ∅).

(** ** Further vocabulary *)

Section Acceptance.

Context `{PyRuntime}.

(** The job inputs the preparation goes through with: a falsy ["loras"]
    entry of any type, or a list of dicts; and, when a tag is to be appended,
    a prompt that is a string or absent. *)
Definition accepted_input (job_input : gmap string pyval) : bool :=
  let loras := default (PList []) (job_input !! "loras") in
  if truthy loras then
    match loras with
    | PList l =>
        forallb is_dict l &&
        match List.filter named_and_weighted l with
        | [] => true
        | _ :: _ =>
            match job_input !! "prompt" with
            | None | Some (PStr _) => true
            | Some _ => false
            end
        end
    | _ => false
    end
  else true.

End Acceptance.



(** A job whose ["loras"] entry is [None] and whose prompt is a number. *)
Definition null_loras_job : gmap string pyval :=
  <["loras" := PNone]> (<["prompt" := PInt 7]> ∅).

Definition null_loras_event : pyval :=
  PDict (<["input" := PDict null_loras_job]> ∅).

(** A job with a tagged descriptor and a prompt that is [None]. *)
Definition null_prompt_job : gmap string pyval :=
  <["loras" := PList [PDict (<["name" := PStr "detail"]> (<["weight" := PInt 1]> ∅))]]>
    (<["prompt" := PNone]> ∅).

Definition null_prompt_event : pyval :=
  PDict (<["input" := PDict null_prompt_job]> ∅).

(** An event with no ["input"] entry. *)
Definition empty_event : pyval := PDict ∅.
(** One of the three kinds of event the readiness wait produces. *)
Definition is_polling_event (ev : event) : Prop :=
  is_print ev = true \/ ev = health_get \/ ev = EvSleep check_interval_seconds.

Definition is_sleep (ev : event) : bool :=
  match ev with EvSleep _ => true | _ => false end.

Definition is_get (ev : event) : bool :=
  match ev with EvGet _ _ => true | _ => false end.

(** The number of "not ready" lines that [n] failed checks leave in the log. *)
Definition log_lines (n : Z) : Z :=
  if Z.eqb n 0 then 0 else 1 + n / 15.

(** A service that never lets a call through. *)
Definition refusing_api : service :=
  fun _ => Raises (Exn RequestException "ConnectionError" "connection refused" None).

(** An [HTTPError] without a response: the one exception the first [except]
    clause of [set_sd_model_checkpoint] cannot print. *)
Definition is_bare_http_error (e : exn) : bool :=
  match exn_class_of e, exn_response e with
  | HTTPError, None => true
  | _, _ => false
  end.

(** The trace of the slow start under a bound of 17 checks. *)
Definition slow_start_trace : list event :=
  (wait_for_service slow_start_api 17 LOCAL_URL "AUTOMATIC1111 WebUI API" []).2.

(** A service that accepts the switch and answers the read-back with status
    500 and a body that names the checkpoint. *)
Definition failing_read_back_api : service :=
  fun tr =>
    match last tr with
    | Some (EvGet _ _) =>
        Responds (Response 500 "Internal Server Error" options_url "{}"
                    (JsonValue (PDict {[ "sd_model_checkpoint" :=
                                           PStr "Gemini_ILMixV5.safetensors [6a1b2c3d4e]" ]})))
    | _ => healthy_api tr
    end.

(** The two lines [main] prints around the setup. *)
Definition starting_line : string :=
  "Starting AUTOMATIC1111 RunPod Serverless Handler...".

Definition setup_complete_line : string :=
  "AUTOMATIC1111 setup complete. Starting RunPod Serverless worker...".

Section PreparationLog.

Context `{PyRuntime}.

(** The warning printed for a descriptor that gets no tag. *)
Definition skipped_warning (lora_entry : pyval) : string :=
  "Warning: Invalid or incomplete LoRA entry skipped: " +:+ py_format lora_entry.

(** The lines the preparation prints: a warning for every descriptor without a
    tag, in order, and the new prompt when a tag was appended. *)
Definition prepared_lines (job_input : gmap string pyval) : list string :=
  (skipped_warning <$>
     List.filter (fun d => negb (named_and_weighted d)) (descriptors job_input)) ++
  match List.filter named_and_weighted (descriptors job_input) with
  | [] => []
  | _ :: _ =>
      [ "Prompt modified with LoRAs. New prompt: " +:+ dquote +:+
        (prompt_string job_input +:+ tags_of (descriptors job_input)) +:+ dquote ]
  end.

End PreparationLog.

(** * Properties *)

Lemma posts_app tr1 tr2 : posts (tr1 ++ tr2) = posts tr1 ++ posts tr2.
Proof. apply omap_app. Qed.

Lemma posts_prints tr : forallb is_print tr = true -> posts tr = [].
Proof.
  induction tr as [|ev tr IH]; [done|].
  destruct ev; simpl; try discriminate. exact IH.
Qed.


Lemma prints_only_ret {A} (a : A) : prints_only (ret a).
Proof. exists (Ok a), []. split; [done|]. intros tr. by rewrite app_nil_r. Qed.

Lemma prints_only_raise {A} e : prints_only (@raise A e).
Proof. exists (Raise e), []. split; [done|]. intros tr. by rewrite app_nil_r. Qed.

Lemma prints_only_print line : prints_only (print line).
Proof. by exists (Ok tt), [EvPrint line]. Qed.

Lemma prints_only_bind {A B} (c : M A) (k : A -> M B) :
  prints_only c -> (forall a, prints_only (k a)) -> prints_only (bind c k).
Proof.
  intros (r & l1 & P1 & E1) Hk. unfold bind. destruct r as [a|e].
  - destruct (Hk a) as (r2 & l2 & P2 & E2).
    exists r2, (l1 ++ l2). split; [by rewrite forallb_app, P1, P2|].
    intros tr. by rewrite E1, E2, app_assoc.
  - exists (Raise e), l1. split; [done|]. intros tr. by rewrite E1.
Qed.

Create HintDb py.
#[local] Hint Resolve prints_only_ret prints_only_raise prints_only_print : py.

Ltac prints_only_tac :=
  repeat first
    [ apply prints_only_bind; [|intros ?]
    | progress eauto with py
    | match goal with
      | |- prints_only (match ?x with _ => _ end) => destruct x
      | |- prints_only (if ?b then _ else _) => destruct b
      end ].

Section Properties.

Context `{PyRuntime}.

Lemma prints_only_method_get v key : prints_only (method_get v key).
Proof. unfold method_get. prints_only_tac. Qed.

Lemma prints_only_lora_step seg entry : prints_only (lora_step seg entry).
Proof.
  unfold lora_step, method_get. prints_only_tac.
Qed.

Lemma prints_only_for_each {A S} (body : S -> A -> M S) items s :
  (forall s x, prints_only (body s x)) -> prints_only (for_each body items s).
Proof.
  intros Hb. revert s. induction items as [|x rest IH]; intros s; simpl.
  - apply prints_only_ret.
  - apply prints_only_bind; auto.
Qed.

Lemma prints_only_inject_loras job_input loras prompt :
  prints_only (inject_loras job_input loras prompt).
Proof.
  unfold inject_loras, py_iter, add_str.
  destruct (truthy loras); [|apply prints_only_ret].
  apply prints_only_bind; [prints_only_tac|intros entries].
  apply prints_only_bind; [apply prints_only_for_each, prints_only_lora_step|intros seg].
  prints_only_tac.
Qed.

Lemma prints_only_prepare_payload event : prints_only (prepare_payload event).
Proof.
  unfold prepare_payload, subscript, method_pop.
  apply prints_only_bind; [prints_only_tac|intros job_input].
  apply prints_only_bind; [prints_only_tac|intros popped].
  apply prints_only_bind; [apply prints_only_inject_loras|intros d].
  apply prints_only_ret.
Qed.

(** ** [run_sd_inference] *)

Lemma full_api_url_cases p :
  full_api_url p = if wants_img2img p then img2img_url else txt2img_url.
Proof. unfold full_api_url, api_endpoint. by destruct (wants_img2img p). Qed.

(** ** The LoRA loop *)

Lemma append_assoc (a b c : string) : (a +:+ b) +:+ c = a +:+ (b +:+ c).
Proof.
  induction a as [|ch a IH]; [done|].
  change (String ch ((a +:+ b) +:+ c) = String ch (a +:+ (b +:+ c))). by rewrite IH.
Qed.

Lemma append_nil_r (a : string) : a +:+ EmptyString = a.
Proof.
  induction a as [|ch a IH]; [done|].
  change (String ch (a +:+ EmptyString) = String ch a). by rewrite IH.
Qed.

Lemma tags_of_cons x rest :
  tags_of (x :: rest) =
  if named_and_weighted x then descriptor_tag x +:+ tags_of rest else tags_of rest.
Proof. unfold tags_of. simpl. by destruct (named_and_weighted x). Qed.

Lemma lora_step_dict seg d tr :
  lora_step seg (PDict d) tr =
  if named_and_weighted (PDict d)
  then (Ok (seg +:+ descriptor_tag (PDict d)), tr)
  else (Ok seg,
        tr ++ [EvPrint ("Warning: Invalid or incomplete LoRA entry skipped: " +:+
                        py_format (PDict d))]).
Proof.
  unfold lora_step, method_get, bind, ret, named_and_weighted, descriptor_tag.
  by destruct (truthy _ && is_int_or_float _).
Qed.

Lemma lora_step_not_dict seg x tr :
  is_dict x = false -> exists e, lora_step seg x tr = (Raise e, tr).
Proof. destruct x; try discriminate; intros _; by eexists. Qed.

Lemma for_each_cons {A S} (body : S -> A -> M S) x rest s tr :
  for_each body (x :: rest) s tr =
  match body s x tr with
  | (Ok s', tr') => for_each body rest s' tr'
  | (Raise e, tr') => (Raise e, tr')
  end.
Proof. reflexivity. Qed.

(** The loop runs to its end exactly when every entry is a dict, and then
    the segment it built is the concatenation of the tags. *)
Lemma for_each_lora_step entries seg tr :
  if forallb is_dict entries
  then exists tr', for_each lora_step entries seg tr = (Ok (seg +:+ tags_of entries), tr')
  else exists e tr', for_each lora_step entries seg tr = (Raise e, tr').
Proof.
  revert seg tr. induction entries as [|x rest IH]; intros seg tr.
  - simpl. exists tr. unfold ret, tags_of. simpl. by rewrite append_nil_r.
  - cbn [forallb]. rewrite !for_each_cons.
    destruct (is_dict x) eqn:Ex.
    + destruct x; try discriminate. rewrite lora_step_dict, tags_of_cons.
      destruct (named_and_weighted _); cbn [andb].
      * rewrite <- append_assoc. apply IH.
      * apply IH.
    + destruct (lora_step_not_dict seg x tr Ex) as [e ->]. cbn [andb]. by eexists _, _.
Qed.

Lemma tags_of_empty ds :
  tags_of ds = EmptyString <-> List.filter named_and_weighted ds = [].
Proof.
  induction ds as [|x rest IH]; [done|].
  rewrite tags_of_cons. simpl. destruct (named_and_weighted x) eqn:E; [|done].
  split; [|done]. destruct x; discriminate.
Qed.

(** ** Default filling *)

Lemma setdefault_fold (l : list (string * pyval)) (d : gmap string pyval) k :
  fold_left (fun d kv => setdefault kv.1 kv.2 d) l d !! k =
  match d !! k with
  | Some v => Some v
  | None => (list_to_map l : gmap string pyval) !! k
  end.
Proof.
  revert d. induction l as [|[k' v'] l IH]; intros d; simpl.
  - rewrite lookup_empty. by destruct (d !! k).
  - rewrite IH. unfold setdefault.
    destruct (decide (k' = k)) as [->|Hne].
    + rewrite lookup_insert_eq. destruct (d !! k) eqn:E; [by rewrite E|].
      by rewrite lookup_insert_eq.
    + rewrite (lookup_insert_ne (list_to_map l)) by done.
      destruct (d !! k'); [done|]. by rewrite lookup_insert_ne.
Qed.

Lemma apply_defaults_lookup d k :
  apply_defaults d !! k =
  match d !! k with
  | Some v => Some v
  | None => (list_to_map defaults : gmap string pyval) !! k
  end.
Proof. apply setdefault_fold. Qed.

(** The loop of [setdefault] calls is the union with the table of defaults,
    the payload's own entries winning. *)
Lemma apply_defaults_fill d : apply_defaults d = fill_defaults d.
Proof.
  apply map_eq. intros k. rewrite apply_defaults_lookup. unfold fill_defaults.
  rewrite lookup_union. destruct (d !! k), (list_to_map defaults !! k); done.
Qed.

(** ** The LoRA block *)

Lemma forallb_is_dict_chars s :
  s <> EmptyString ->
  forallb is_dict ((fun c => PStr (String c EmptyString)) <$> String.list_ascii_of_string s) = false.
Proof. destruct s; [done|]. done. Qed.

Lemma forallb_is_dict_keys (d : gmap string pyval) :
  size d <> 0%nat ->
  forallb is_dict ((fun kv : string * pyval => PStr kv.1) <$> map_to_list d) = false.
Proof.
  intros Hs. destruct (map_to_list d) as [|kv l] eqn:E; [|done].
  apply map_to_list_empty_iff in E. subst d. by rewrite map_size_empty in Hs.
Qed.

(** What the block does to a job input whose ["loras"] entry has just been
    popped: it yields the payload of step one, and it raises only on an input
    that is not well formed. *)
Lemma inject_loras_spec (j : gmap string pyval) tr :
  match inject_loras (delete "loras" j) (default (PList []) (j !! "loras"))
          (default (PStr EmptyString) (delete "loras" j !! "prompt")) tr with
  | (Ok p, _) => p = move_loras_to_prompt j
  | (Raise _, _) => well_formed_input j = false
  end.
Proof.
  rewrite lookup_delete_ne by done.
  unfold inject_loras, move_loras_to_prompt, descriptors, well_formed_input, prompt_string.
  destruct (j !! "loras") as [loras|] eqn:El; [|done].
  destruct loras as [|b|z|f|s|l|d]; cbn [default from_option id truthy].
  - done.
  - by destruct b.
  - by destruct (Z.eqb z 0).
  - by destruct f.
  - destruct (String.eqb_spec s EmptyString) as [->|Hs]; [done|]. cbn [negb].
    unfold bind at 1, py_iter, ret at 1. unfold bind at 1.
    pose proof (for_each_lora_step
      ((fun c => PStr (String c EmptyString)) <$> String.list_ascii_of_string s)
      EmptyString tr) as Hloop.
    rewrite forallb_is_dict_chars in Hloop by done.
    by destruct Hloop as (e & tr' & ->).
  - destruct l as [|x l]; [done|].
    unfold bind at 1, py_iter, ret at 1. unfold bind at 1.
    pose proof (for_each_lora_step (x :: l) EmptyString tr) as Hloop.
    destruct (forallb is_dict (x :: l)); [|by destruct Hloop as (e & tr' & ->)].
    destruct Hloop as (tr' & ->).
    change (EmptyString +:+ tags_of (x :: l)) with (tags_of (x :: l)).
    destruct (String.eqb_spec (tags_of (x :: l)) EmptyString) as [Ht|Ht]; cbn [negb].
    + apply tags_of_empty in Ht. by rewrite Ht.
    + destruct (List.filter named_and_weighted (x :: l)) eqn:Ef.
      { by apply tags_of_empty in Ef. }
      unfold bind at 1, add_str.
      destruct (j !! "prompt") as [[]|]; try done.
  - destruct (Nat.eqb_spec (size d) 0) as [Hd|Hd]; [done|]. cbn [negb].
    unfold bind at 1, py_iter, ret at 1. unfold bind at 1.
    pose proof (for_each_lora_step
      ((fun kv : string * pyval => PStr kv.1) <$> map_to_list d) EmptyString tr) as Hloop.
    rewrite forallb_is_dict_keys in Hloop by done.
    by destruct Hloop as (e & tr' & ->).
Qed.

(** ** [handler], step by step *)

Lemma emitted_eq {A} (c : M A) h r em : c h = (r, h ++ em) -> emitted c h = em.
Proof. intros E. unfold emitted. rewrite E. simpl. apply drop_app_length. Qed.

Lemma run_sd_inference_eq api p tr :
  run_sd_inference api p tr =
  (inference_result (api (tr ++ inference_events p)), tr ++ inference_events p).
Proof.
  unfold inference_result, run_sd_inference, bind, print, emit, session_post, http_call,
    raise_for_status, response_json, inference_events, sending_line.
  rewrite <- app_assoc. simpl.
  destruct (api _) as [e|r]; [done|].
  destruct (is_error_status r); [done|]. simpl.
  destruct (json r) as [v|[] msg]; done.
Qed.

Lemma handler_except_eq e :
  exists msg line, forall tr,
    handler_except e tr = (Ok (error_result msg (status_for e)), tr ++ [EvPrint line]).
Proof.
  unfold handler_except, status_for.
  destruct (exn_class_of e); [destruct (exn_response e)|..]; by eexists _, _.
Qed.

(** The whole of [handler], given what its preparation yields. *)
Lemma handler_run api event h r logs :
  (forall tr, prepare_payload event tr = (r, tr ++ logs)) ->
  handler api event h =
  match r with
  | Raise e => (Raise e, h ++ logs)
  | Ok p =>
      match inference_result (api (h ++ logs ++ inference_events p)) with
      | Ok v => (Ok v, h ++ logs ++ inference_events p)
      | Raise e => handler_except e (h ++ logs ++ inference_events p)
      end
  end.
Proof.
  intros E. unfold handler, bind. rewrite E. destruct r as [p|e]; [|done].
  unfold try_except. rewrite run_sd_inference_eq, <- app_assoc. by destruct (inference_result _).
Qed.

(** What one invocation adds to the trace: the lines of the preparation and,
    when the preparation succeeds, the inference events and at most one more
    line. *)
Lemma handler_emitted api event h r logs :
  (forall tr, prepare_payload event tr = (r, tr ++ logs)) ->
  match r with
  | Raise _ => emitted (handler api event) h = logs
  | Ok p =>
      exists tail, forallb is_print tail = true /\
        emitted (handler api event) h = logs ++ inference_events p ++ tail
  end.
Proof.
  intros E. pose proof (handler_run api event h r logs E) as Hrun.
  destruct r as [p|e]; [|by apply emitted_eq in Hrun].
  destruct (inference_result _) as [v|e].
  - exists []. split; [done|]. rewrite app_nil_r. by apply emitted_eq in Hrun.
  - destruct (handler_except_eq e) as (msg & line & Hx). rewrite Hx in Hrun.
    exists [EvPrint line]. split; [done|].
    apply (emitted_eq _ _ (Ok (error_result msg (status_for e)))).
    by rewrite Hrun, <- !app_assoc.
Qed.

Lemma handler_posts api event h r logs :
  forallb is_print logs = true ->
  (forall tr, prepare_payload event tr = (r, tr ++ logs)) ->
  posts (emitted (handler api event) h) =
  match r with
  | Raise _ => []
  | Ok p => [(full_api_url p, PDict p)]
  end.
Proof.
  intros P E. pose proof (handler_emitted api event h r logs E) as Hem.
  destruct r as [p|e].
  - destruct Hem as (tail & Pt & ->).
    rewrite !posts_app, (posts_prints logs), (posts_prints tail) by done. done.
  - rewrite Hem. by apply posts_prints.
Qed.

Lemma prepare_payload_spec event j r logs :
  job_input_of event = Some j ->
  (forall tr, prepare_payload event tr = (r, tr ++ logs)) ->
  match r with
  | Ok p => p = transformed_payload j
  | Raise _ => well_formed_input j = false
  end.
Proof.
  intros Hj E. specialize (E []).
  destruct event as [| | | | | |ev]; try discriminate. simpl in Hj.
  destruct (ev !! "input") as [[| | | | | |j']|] eqn:Ei; try discriminate.
  injection Hj as ->.
  unfold prepare_payload, subscript in E. rewrite Ei in E.
  unfold bind at 1, ret at 1, method_pop in E. unfold bind at 1, ret at 1 in E.
  cbn [fst snd] in E. unfold bind in E.
  pose proof (inject_loras_spec j []) as Hs.
  destruct (inject_loras _ _ _ _) as [[p|e] tr'].
  - unfold ret in E. injection E as <- _. subst p.
    unfold transformed_payload. by rewrite apply_defaults_fill.
  - injection E as <- _. exact Hs.
Qed.

Lemma prepare_payload_no_input event r logs :
  job_input_of event = None ->
  (forall tr, prepare_payload event tr = (r, tr ++ logs)) ->
  exists e, r = Raise e.
Proof.
  intros Hj E. specialize (E []).
  unfold prepare_payload, subscript, method_pop, bind in E.
  destruct event as [| | | | | |ev]; try (injection E as <- _; by eexists).
  simpl in Hj. destruct (ev !! "input") as [[| | | | | |j']|];
    try discriminate; injection E as <- _; by eexists.
Qed.

(** ** The payload that is forwarded *)

Lemma move_loras_lookup_loras j : move_loras_to_prompt j !! "loras" = None.
Proof.
  unfold move_loras_to_prompt. destruct (List.filter _ _).
  - apply lookup_delete_eq.
  - rewrite lookup_insert_ne by done. apply lookup_delete_eq.
Qed.

Lemma move_loras_lookup_other j k :
  k <> "loras" -> k <> "prompt" -> move_loras_to_prompt j !! k = j !! k.
Proof.
  intros Hl Hp. unfold move_loras_to_prompt. destruct (List.filter _ _).
  - by rewrite lookup_delete_ne.
  - rewrite lookup_insert_ne by done. by rewrite lookup_delete_ne.
Qed.

Lemma move_loras_lookup_prompt j :
  List.filter named_and_weighted (descriptors j) = [] ->
  move_loras_to_prompt j !! "prompt" = j !! "prompt".
Proof.
  intros Hf. unfold move_loras_to_prompt. rewrite Hf. by rewrite lookup_delete_ne.
Qed.

Lemma fill_defaults_lookup d k :
  fill_defaults d !! k =
  match d !! k with
  | Some v => Some v
  | None => (list_to_map defaults : gmap string pyval) !! k
  end.
Proof. rewrite <- apply_defaults_fill. apply apply_defaults_lookup. Qed.

Lemma fill_defaults_keeps d k v : d !! k = Some v -> fill_defaults d !! k = Some v.
Proof. intros E. by rewrite fill_defaults_lookup, E. Qed.

Lemma fill_defaults_has_defaults d :
  Forall (fun k => is_Some (fill_defaults d !! k)) defaulted_keys.
Proof.
  unfold defaulted_keys. repeat constructor;
    rewrite fill_defaults_lookup; by destruct (d !! _).
Qed.

(** The requests of one invocation, by what the event carries. *)
Lemma handler_posts_cases api event h :
  match job_input_of event with
  | None => posts (emitted (handler api event) h) = []
  | Some j =>
      posts (emitted (handler api event) h) =
        [(full_api_url (transformed_payload j), PDict (transformed_payload j))] \/
      posts (emitted (handler api event) h) = [] /\ well_formed_input j = false
  end.
Proof.
  destruct (prints_only_prepare_payload event) as (r & logs & P & E).
  rewrite (handler_posts api event h r logs P E).
  destruct (job_input_of event) as [j|] eqn:Hj.
  - pose proof (prepare_payload_spec event j r logs Hj E) as Hs.
    destruct r as [p|e]; [left; by subst p|by right].
  - destruct (prepare_payload_no_input event r logs Hj E) as [e ->]. done.
Qed.

(** C1: for every job input, the payload the handler forwards is obtained in
    two ordered steps: the list of LoRA descriptors is removed and the tag of
    every descriptor with a (truthy) name and an int-or-float weight is
    appended to the prompt string, the empty string standing for a missing
    prompt ([move_loras_to_prompt]); the defaults of the missing generation
    parameters are filled in after that ([fill_defaults]).  Every request of
    an invocation carries that payload, and a well-formed job input (a list of
    dicts under ["loras"], a string under ["prompt"], each if present) yields
    exactly one such request. *)
Theorem handler_moves_loras_then_fills_defaults api event job_input h :
  job_input_of event = Some job_input ->
  (forall request, request ∈ posts (emitted (handler api event) h) ->
     request.2 = PDict (fill_defaults (move_loras_to_prompt job_input))) /\
  (well_formed_input job_input = true ->
     posts (emitted (handler api event) h) =
       [(full_api_url (transformed_payload job_input),
         PDict (fill_defaults (move_loras_to_prompt job_input)))]).
Proof.
  intros Hj. pose proof (handler_posts_cases api event h) as Hc. rewrite Hj in Hc.
  destruct Hc as [-> | [-> Hwf]].
  - split; [|done]. intros request Hin. apply list_elem_of_singleton in Hin. by subst.
  - split; [|congruence]. intros request Hin. by apply elem_of_nil in Hin.
Qed.

(** C8: every key of the job input other than ["loras"] and ["prompt"] maps
    to its original value in the forwarded payload, and so does ["prompt"]
    when no descriptor is named and weighted; default filling keeps every
    entry that is already there and leaves ["prompt"] as it finds it. *)
Theorem handler_keeps_caller_fields api event job_input h :
  job_input_of event = Some job_input ->
  (forall request, request ∈ posts (emitted (handler api event) h) ->
     exists payload, request.2 = PDict payload /\
       (forall k v, k <> "loras" -> k <> "prompt" ->
          job_input !! k = Some v -> payload !! k = Some v) /\
       (List.filter named_and_weighted (descriptors job_input) = [] ->
          payload !! "prompt" = job_input !! "prompt")) /\
  (forall d k v, d !! k = Some v -> apply_defaults d !! k = Some v) /\
  (forall d, apply_defaults d !! "prompt" = d !! "prompt").
Proof.
  intros Hj. split; [|split].
  - intros request Hin.
    pose proof (handler_posts_cases api event h) as Hc. rewrite Hj in Hc.
    destruct Hc as [Hp | [Hp _]]; rewrite Hp in Hin; [|by apply elem_of_nil in Hin].
    apply list_elem_of_singleton in Hin. subst request.
    exists (transformed_payload job_input). split; [done|]. split.
    + intros k v Hl Hpk Hk. apply fill_defaults_keeps.
      by rewrite move_loras_lookup_other.
    + intros Hf. unfold transformed_payload.
      rewrite fill_defaults_lookup, move_loras_lookup_prompt by done.
      by destruct (job_input !! "prompt").
  - intros d k v Hk. rewrite apply_defaults_fill. by apply fill_defaults_keeps.
  - intros d. rewrite apply_defaults_lookup. by destruct (d !! "prompt").
Qed.

(** C9: the payload of every request the handler sends has no ["loras"] key
    and has all seven of ["steps"], ["sampler_name"], ["cfg_scale"],
    ["width"], ["height"], ["seed"] and ["negative_prompt"]. *)
Theorem forwarded_payload_keys api event h request :
  request ∈ posts (emitted (handler api event) h) ->
  exists payload, request.2 = PDict payload /\
    payload !! "loras" = None /\
    Forall (fun k => is_Some (payload !! k)) defaulted_keys.
Proof.
  intros Hin. pose proof (handler_posts_cases api event h) as Hc.
  destruct (job_input_of event) as [j|];
    [destruct Hc as [Hp | [Hp _]]|rename Hc into Hp]; rewrite Hp in Hin;
    try by apply elem_of_nil in Hin.
  apply list_elem_of_singleton in Hin. subst request.
  exists (transformed_payload j). split; [done|]. split.
  - unfold transformed_payload. by rewrite fill_defaults_lookup, move_loras_lookup_loras.
  - apply fill_defaults_has_defaults.
Qed.

(** ** The endpoint *)

(** C2, amended: [run_sd_inference] sends exactly one POST, to one of the two
    endpoints; it goes to img2img when ["init_images"] is present with a
    truthy value, and to txt2img when the key is absent or its value is falsy
    (an empty list, [None], an empty string). *)
Theorem run_sd_inference_endpoint api inference_payload tr :
  posts (emitted (run_sd_inference api inference_payload) tr) =
    [(full_api_url inference_payload, PDict inference_payload)] /\
  full_api_url inference_payload =
    match inference_payload !! "init_images" with
    | Some v => if truthy v then img2img_url else txt2img_url
    | None => txt2img_url
    end.
Proof.
  split.
  - rewrite (emitted_eq _ _ _ _ (run_sd_inference_eq api inference_payload tr)). done.
  - rewrite full_api_url_cases. unfold wants_img2img.
    by destruct (inference_payload !! "init_images").
Qed.

(** ** Results and errors *)

Lemma prepare_payload_inv event h payload h1 :
  prepare_payload event h = (Ok payload, h1) ->
  exists logs, forallb is_print logs = true /\ h1 = h ++ logs /\
    forall tr, prepare_payload event tr = (Ok payload, tr ++ logs).
Proof.
  intros E. destruct (prints_only_prepare_payload event) as (r & logs & P & Eall).
  rewrite Eall in E. injection E as -> <-. by exists logs.
Qed.

Lemma handler_after_prepare api event h payload h1 :
  prepare_payload event h = (Ok payload, h1) ->
  handler api event h =
  match (run_sd_inference api payload h1).1 with
  | Ok v => (Ok v, h1 ++ inference_events payload)
  | Raise e => handler_except e (h1 ++ inference_events payload)
  end.
Proof.
  intros E. unfold handler, bind. rewrite E. unfold try_except.
  rewrite run_sd_inference_eq. by destruct (inference_result _).
Qed.



(** C7: when the inference call fails, the handler has sent exactly one POST
    and returns the error result right after it, with one more printed line
    and no sleep or further request; the only retry policy is the one mounted
    on the session, of at most 15 retries and, by status, only on 500, 502,
    503 and 504. *)
Theorem handler_no_application_retry api event h payload h1 e :
  prepare_payload event h = (Ok payload, h1) ->
  (run_sd_inference api payload h1).1 = Raise e ->
  (exists msg line logs,
     forallb is_print logs = true /\
     handler api event h =
       (Ok (error_result msg (status_for e)),
        h ++ logs ++ inference_events payload ++ [EvPrint line])) /\
  posts (emitted (handler api event) h) = [(full_api_url payload, PDict payload)] /\
  total retries_config = 15 /\
  status_forcelist retries_config = [500; 502; 503; 504] /\
  Forall (fun code => 500 <= code < 600) (status_forcelist retries_config).
Proof.
  intros E He.
  destruct (prepare_payload_inv event h payload h1 E) as (logs & P & -> & Eall).
  split; [|split; [|split; [|split]]].
  - rewrite (handler_after_prepare api event h payload _ E), He.
    destruct (handler_except_eq e) as (msg & line & ->).
    exists msg, line, logs. by rewrite <- !app_assoc.
  - by rewrite (handler_posts api event h _ logs P Eall).
  - done.
  - done.
  - unfold retries_config. simpl. repeat constructor; lia.
Qed.

(** C6: one invocation sends at most one POST, and only to the txt2img or the
    img2img endpoint; and the handler keeps no state: two invocations on the
    same event whose requests the API answers alike return the same result and
    add the same events, whatever happened before them. *)
Theorem handler_single_call_no_state event :
  (forall api h,
     (length (posts (emitted (handler api event) h)) <= 1)%nat /\
     Forall (fun request => request.1 = txt2img_url \/ request.1 = img2img_url)
            (posts (emitted (handler api event) h))) /\
  (forall api1 api2 h1 h2,
     (forall em, api1 (h1 ++ em) = api2 (h2 ++ em)) ->
     (handler api1 event h1).1 = (handler api2 event h2).1 /\
     emitted (handler api1 event) h1 = emitted (handler api2 event) h2).
Proof.
  destruct (prints_only_prepare_payload event) as (r & logs & P & E).
  split.
  - intros api h. rewrite (handler_posts api event h r logs P E).
    destruct r as [p|e]; simpl; [|split; [lia|constructor]].
    split; [lia|]. apply Forall_cons. split; [|constructor].
    simpl. rewrite full_api_url_cases. destruct (wants_img2img p); auto.
  - intros api1 api2 h1 h2 Hsame.
    pose proof (handler_run api1 event h1 r logs E) as R1.
    pose proof (handler_run api2 event h2 r logs E) as R2.
    destruct r as [p|e].
    + rewrite Hsame in R1. destruct (inference_result _) as [v|e].
      * rewrite R1, R2. split; [done|].
        by rewrite (emitted_eq _ _ _ _ R1), (emitted_eq _ _ _ _ R2).
      * destruct (handler_except_eq e) as (msg & line & Hx). rewrite Hx in R1, R2.
        rewrite R1, R2. split; [done|].
        rewrite <- !app_assoc in R1, R2.
        by rewrite (emitted_eq _ _ _ _ R1), (emitted_eq _ _ _ _ R2).
    + rewrite R1, R2. split; [done|].
      by rewrite (emitted_eq _ _ _ _ R1), (emitted_eq _ _ _ _ R2).
Qed.

(** X2: the loop of [setdefault] calls over the table of defaults yields the
    union of the payload with the table, in which the payload's own entries
    win. *)
Theorem setdefault_loop_is_union (job_input : gmap string pyval) :
  apply_defaults job_input = job_input ∪ list_to_map defaults.
Proof. apply apply_defaults_fill. Qed.

(** X3: the handler raises only while it prepares the payload, before any
    request is sent, and only on a job input that is not well formed. *)
Theorem handler_raises_only_on_malformed_input api event job_input h e :
  job_input_of event = Some job_input ->
  (handler api event h).1 = Raise e ->
  well_formed_input job_input = false /\
  posts (emitted (handler api event) h) = [].
Proof.
  intros Hj He.
  destruct (prints_only_prepare_payload event) as (r & logs & P & E).
  pose proof (prepare_payload_spec event job_input r logs Hj E) as Hs.
  rewrite (handler_posts api event h r logs P E).
  rewrite (handler_run api event h r logs E) in He.
  destruct r as [p|e']; [|done].
  destruct (inference_result _) as [v|e']; [discriminate|].
  destruct (handler_except_eq e') as (msg & line & Hx). rewrite Hx in He. discriminate.
Qed.

(** ** [wait_for_service] *)

Lemma wait_iteration_eq api service_name n tr :
  wait_iteration api service_name n tr =
  match health_failure (api (tr ++ [health_get])) with
  | None => (Ok None, tr ++ ending service_name true)
  | Some e => (Ok (Some (n + 1)), tr ++ failed_round service_name (n + 1) e)
  end.
Proof.
  unfold wait_iteration, bind, try_except, health_check, bind, session_get, http_call,
    raise_for_status, health_failure, failed_round, ending, health_get.
  destruct (api _) as [e|r].
  - destruct (logs_attempt (n + 1)); unfold print, sleep, emit, ret;
      by rewrite <- !app_assoc.
  - destruct (is_error_status r).
    + destruct (logs_attempt (n + 1)); unfold raise, print, sleep, emit, ret;
        by rewrite <- !app_assoc.
    + unfold ret, print, emit. by rewrite <- !app_assoc.
Qed.

(** The loop is a run of failed rounds, closed by the successful check when
    it returns. *)
Lemma wait_loop_rounds api service_name fuel n tr :
  exists returned failures,
    wait_loop api service_name fuel n tr =
      (Ok returned,
       tr ++ rounds service_name (n + 1) failures ++ ending service_name returned) /\
    (returned = true ->
       exists r, api (tr ++ rounds service_name (n + 1) failures ++ [health_get]) = Responds r /\
                 is_error_status r = false) /\
    (forall i e, failures !! i = Some e ->
       health_failure
         (api (tr ++ rounds service_name (n + 1) (take i failures) ++ [health_get])) = Some e) /\
    (if returned then length failures < fuel else length failures = fuel)%nat.
Proof.
  revert n tr. induction fuel as [|fuel IH]; intros n tr.
  - exists false, []. simpl. rewrite app_nil_r. repeat split; done.
  - cbn [wait_loop]. unfold bind at 1. rewrite wait_iteration_eq.
    destruct (health_failure (api (tr ++ [health_get]))) as [e|] eqn:Hf.
    + destruct (IH (n + 1) (tr ++ failed_round service_name (n + 1) e))
        as (returned & failures & Hrun & Hok & Hfail & Hlen).
      exists returned, (e :: failures). cbn [rounds].
      rewrite <- !app_assoc in *. split; [exact Hrun|]. split; [|split].
      * intros Hr. destruct (Hok Hr) as (r & Ha & Hs). by exists r.
      * intros [|i] e' Hi.
        { simpl in Hi. injection Hi as <-. exact Hf. }
        simpl in Hi. cbn [take rounds]. specialize (Hfail i e' Hi).
        by rewrite <- !app_assoc in *.
      * destruct returned; simpl; lia.
    + exists true, []. cbn [rounds app]. split; [done|]. split; [|split].
      * intros _. unfold health_failure in Hf.
        destruct (api (tr ++ [health_get])) as [e|r]; [done|].
        exists r. split; [done|]. by destruct (is_error_status r).
      * intros i e Hi. by rewrite lookup_nil in Hi.
      * simpl. lia.
Qed.

(** C4: [wait_for_service] never raises, and what it adds to the trace is its
    opening line, then one round per failed check (the GET on the health
    endpoint, a log line exactly on attempt 1 and on the attempts divisible by
    15, the sleep of half a second) and, when it returns, the check that
    succeeded: it returns only after the health endpoint answered with a
    status that is no error, every failed check is followed by the sleep and
    by another check, and it is still polling only when all the [fuel] checks
    it was allowed have failed. *)
Theorem wait_for_service_polls_until_success api fuel target service_name h :
  exists returned failures,
    wait_for_service api fuel target service_name h =
      (Ok returned,
       h ++ [EvPrint (waiting_line target service_name)] ++
       rounds service_name 1 failures ++ ending service_name returned) /\
    (returned = true ->
       exists r,
         api (h ++ [EvPrint (waiting_line target service_name)] ++
              rounds service_name 1 failures ++ [health_get]) = Responds r /\
         is_error_status r = false) /\
    (forall i e, failures !! i = Some e ->
       health_failure
         (api (h ++ [EvPrint (waiting_line target service_name)] ++
               rounds service_name 1 (take i failures) ++ [health_get])) = Some e) /\
    (if returned then length failures < fuel else length failures = fuel)%nat /\
    (forall k, logs_attempt k = true <-> k = 1 \/ k mod 15 = 0).
Proof.
  unfold wait_for_service, bind, print, emit.
  destruct (wait_loop_rounds api service_name fuel 0
              (h ++ [EvPrint (waiting_line target service_name)]))
    as (returned & failures & Hrun & Hok & Hfail & Hlen).
  exists returned, failures. change (0 + 1) with 1 in *.
  rewrite <- !app_assoc in *. split; [exact Hrun|]. split; [|split; [|split]].
  - intros Hr. destruct (Hok Hr) as (r & Ha & Hs). by exists r.
  - intros i e Hi. specialize (Hfail i e Hi). by rewrite <- !app_assoc in Hfail.
  - exact Hlen.
  - intros k. unfold logs_attempt, log_interval.
    rewrite orb_true_iff, !Z.eqb_eq. done.
Qed.

(** ** [set_sd_model_checkpoint] *)

Lemma set_checkpoint_except_eq model e :
  (exn_class_of e = HTTPError -> is_Some (exn_response e)) ->
  exists lines,
    forallb (fun l => negb (reports_success l)) lines = true /\
    forall tr, set_checkpoint_except model e tr = (Ok tt, tr ++ (EvPrint <$> lines)).
Proof.
  intros Hresp. unfold set_checkpoint_except.
  destruct (exn_class_of e).
  - destruct (Hresp eq_refl) as [r ->].
    eexists [_; _]. split; [|intros tr; unfold bind, print, emit; by rewrite <- app_assoc].
    reflexivity.
  - eexists [_]. split; [|done]. reflexivity.
  - eexists [_]. split; [|done]. reflexivity.
Qed.

Lemma str_in_contains model v b tr tr' :
  str_in model v tr = (Ok b, tr') -> b = contains_name model v /\ tr' = tr.
Proof.
  destruct v; simpl; unfold ret, raise; intros E; try discriminate;
    injection E as <- <-; done.
Qed.

Lemma no_success_in_warnings model v :
  forallb (fun l => negb (reports_success l)) (warning_lines model v) = true.
Proof. reflexivity. Qed.

Lemma print_all_eq lines tr : print_all lines tr = (Ok tt, tr ++ (EvPrint <$> lines)).
Proof.
  revert tr. induction lines as [|l ls IH]; intros tr; simpl.
  - unfold ret. by rewrite app_nil_r.
  - unfold bind, print, emit. rewrite IH. by rewrite <- app_assoc.
Qed.


Lemma no_success_line lines line :
  forallb (fun l => negb (reports_success l)) lines = true ->
  EvPrint line ∈ (EvPrint <$> lines) -> reports_success line = true -> False.
Proof.
  intros Hno Hin Hs. apply list_elem_of_fmap in Hin as (l & [= ->] & Hl).
  rewrite forallb_forall in Hno. apply list_elem_of_In in Hl.
  specialize (Hno _ Hl). by rewrite Hs in Hno.
Qed.

Lemma verdict_cases model cur tr :
  (exists e, verdict model cur tr = (Raise e, tr) /\ exn_class_of e = OtherException) \/
  (exists lines, verdict model cur tr = (Ok tt, tr ++ (EvPrint <$> lines)) /\
     forallb (fun l => negb (reports_success l)) lines = true) \/
  (exists d v, cur = PDict d /\ d !! "sd_model_checkpoint" = Some v /\
     truthy v = true /\ contains_name model v = true /\
     verdict model cur tr = (Ok tt, tr ++ [EvPrint (success_line v)])).
Proof.
  unfold verdict, method_get.
  destruct cur as [| | | | | |d]; try (left; by eexists).
  unfold bind, ret.
  destruct (d !! "sd_model_checkpoint") as [v|] eqn:Ev; cbn [default from_option id].
  - destruct (truthy v) eqn:Ht.
    + destruct (str_in model v tr) as [[b|e] tr'] eqn:Es.
      * apply str_in_contains in Es as [-> ->].
        destruct (contains_name model v) eqn:Ec.
        { right; right. by exists d, v. }
        right; left. exists (warning_lines model v). by rewrite print_all_eq.
      * left. exists e. destruct v; simpl in Es; unfold ret, raise in Es;
          try discriminate; by injection Es as <- <-.
    + right; left. exists (warning_lines model v). by rewrite print_all_eq.
  - right; left. exists (warning_lines model PNone). cbn [truthy].
    by rewrite print_all_eq.
Qed.


Lemma set_checkpoint_body_eq api model tr :
  set_checkpoint_body api model tr =
  let sent :=
    tr ++ [EvPost options_url (PDict {[ "sd_model_checkpoint" := PStr model ]}) 60] in
  match api sent with
  | Raises e => (Raise e, sent)
  | Responds r1 =>
      if is_error_status r1
      then (Raise (Exn HTTPError "HTTPError" (http_error_message r1) (Some r1)), sent)
      else
        match api (sent ++ read_back_request) with
        | Raises e => (Raise e, sent ++ read_back_request)
        | Responds r2 =>
            match json r2 with
            | JsonValue current_options =>
                verdict model current_options (sent ++ read_back_request)
            | JsonDecodeError wrapped msg =>
                (Raise (Exn (if wrapped then RequestException else OtherException)
                            "JSONDecodeError" msg None),
                 sent ++ read_back_request)
            end
        end
  end.
Proof.
  unfold set_checkpoint_body, verdict, read_back_request.
  unfold bind at 1, session_post, http_call. cbv zeta.
  destruct (api _) as [e|r1]; [done|].
  unfold bind at 1, raise_for_status. destruct (is_error_status r1); [done|].
  unfold ret at 1. unfold bind at 1, sleep, emit.
  unfold bind at 1, session_get, http_call. rewrite <- !app_assoc. simpl.
  destruct (api _) as [e|r2]; [done|].
  unfold bind at 1, response_json.
  destruct (json r2) as [cur|[] msg]; done.
Qed.

(** X1: when no [HTTPError] comes without its response,
    [set_sd_model_checkpoint] returns normally: it has sent the POST to the options endpoint with the
    requested name, and a line that reports success is printed only when the
    configuration read back afterwards holds, under ["sd_model_checkpoint"], a
    truthy value that contains the requested name. *)
Theorem set_sd_model_checkpoint_verifies_by_read_back api model h :
  (forall tr e, api tr = Raises e -> exn_class_of e = HTTPError -> is_Some (exn_response e)) ->
  exists rest,
    set_sd_model_checkpoint api model h = (Ok tt, h ++ switch_request model ++ rest) /\
    forall line, EvPrint line ∈ rest -> reports_success line = true ->
      exists r d v,
        api (h ++ switch_request model ++ read_back_request) = Responds r /\
        json r = JsonValue (PDict d) /\
        d !! "sd_model_checkpoint" = Some v /\
        truthy v = true /\ contains_name model v = true /\
        line = success_line v.
Proof.
  intros Hapi.
  assert (forall e quiet,
    (exn_class_of e = HTTPError -> is_Some (exn_response e)) ->
    (forall line, EvPrint line ∈ quiet -> False) ->
    exists rest,
      set_checkpoint_except model e (h ++ switch_request model ++ quiet) =
        (Ok tt, h ++ switch_request model ++ rest) /\
      forall line, EvPrint line ∈ rest -> reports_success line = true -> False) as Hcaught.
  { intros e quiet He Hq.
    destruct (set_checkpoint_except_eq model e He) as (lines & Hno & ->).
    exists (quiet ++ (EvPrint <$> lines)). split; [by rewrite <- !app_assoc|].
    intros line Hin Hs. apply elem_of_app in Hin as [Hin|Hin]; [by eapply Hq|].
    by eapply no_success_line. }
  assert (forall line, EvPrint line ∈ read_back_request -> False) as Hquiet.
  { intros line Hin. unfold read_back_request in Hin.
    apply elem_of_cons in Hin as [Hin|Hin]; [discriminate|].
    apply elem_of_cons in Hin as [Hin|Hin]; [discriminate|]. by apply elem_of_nil in Hin. }
  assert (forall line, EvPrint line ∈ @nil event -> False) as Hnil.
  { intros line Hin. by apply elem_of_nil in Hin. }
  unfold set_sd_model_checkpoint, bind at 1, print at 1, emit, try_except.
  rewrite set_checkpoint_body_eq. cbv zeta.
  replace ((h ++ [EvPrint ("Attempting to set SD model checkpoint to: " +:+ model)]) ++
           [EvPost options_url (PDict {[ "sd_model_checkpoint" := PStr model ]}) 60])
    with (h ++ switch_request model) by (unfold switch_request; by rewrite <- app_assoc).
  destruct (api (h ++ switch_request model)) as [e|r1] eqn:E1.
  - destruct (Hcaught e [] (Hapi _ _ E1) Hnil) as (rest & Hrun & Hno).
    rewrite app_nil_r in Hrun. exists rest. split; [done|].
    intros line Hin Hs. destruct (Hno line Hin Hs).
  - destruct (is_error_status r1).
    + destruct (Hcaught (Exn HTTPError "HTTPError" (http_error_message r1) (Some r1)) []
                  (fun _ => ltac:(by eexists)) Hnil) as (rest & Hrun & Hno).
      rewrite app_nil_r in Hrun. exists rest. split; [done|].
      intros line Hin Hs. destruct (Hno line Hin Hs).
    + rewrite <- app_assoc.
      destruct (api (h ++ switch_request model ++ read_back_request)) as [e|r2] eqn:E2.
      * destruct (Hcaught e read_back_request (Hapi _ _ E2) Hquiet) as (rest & Hrun & Hno).
        exists rest. split; [done|].
        intros line Hin Hs. destruct (Hno line Hin Hs).
      * destruct (json r2) as [cur|wrapped msg] eqn:Ej.
        -- destruct (verdict_cases model cur (h ++ switch_request model ++ read_back_request))
             as [(e & -> & He) | [(lines & -> & Hno) | (d & v & -> & Hv & Ht & Hc & ->)]].
           ++ destruct (Hcaught e read_back_request) as (rest & Hrun & Hno');
                [by rewrite He|exact Hquiet|].
              exists rest. split; [done|].
              intros line Hin Hs. destruct (Hno' line Hin Hs).
           ++ exists (read_back_request ++ (EvPrint <$> lines)).
              split; [by rewrite <- !app_assoc|].
              intros line Hin Hs. apply elem_of_app in Hin as [Hin|Hin];
                [destruct (Hquiet line Hin)|destruct (no_success_line _ _ Hno Hin Hs)].
           ++ exists (read_back_request ++ [EvPrint (success_line v)]).
              split; [by rewrite <- !app_assoc|].
              intros line Hin Hs. apply elem_of_app in Hin as [Hin|Hin];
                [destruct (Hquiet line Hin)|].
              apply list_elem_of_singleton in Hin as [= ->].
              by exists r2, d, v.
        -- destruct (Hcaught (Exn (if wrapped then RequestException else OtherException)
                                  "JSONDecodeError" msg None) read_back_request)
             as (rest & Hrun & Hno); [by destruct wrapped|exact Hquiet|].
           exists rest. split; [done|].
           intros line Hin Hs. destruct (Hno line Hin Hs).
Qed.

End Properties.

(** * Concrete runs *)

Lemma handler_moves_loras_then_fills_defaults_witness :
  job_input_of sample_event = Some sample_job_input /\
  well_formed_input sample_job_input = true /\
  posts (emitted (handler (H := marker_runtime) healthy_api sample_event) []) =
    [(txt2img_url, PDict sample_payload)] /\
  sample_payload !! "prompt" = Some (PStr "a cat <lora:detail:1>") /\
  sample_payload !! "loras" = None /\
  sample_payload !! "steps" = Some (PInt 30) /\
  sample_payload !! "width" = Some (PInt 512).
Proof.
  split; [reflexivity|]. split; [reflexivity|]. split.
  - exact (proj2 (handler_moves_loras_then_fills_defaults (H := marker_runtime)
                    healthy_api sample_event sample_job_input [] eq_refl) eq_refl).
  - repeat split; reflexivity.
Defined.

Lemma handler_keeps_caller_fields_witness :
  job_input_of sample_event = Some sample_job_input /\
  (forall request,
     request ∈ posts (emitted (handler (H := marker_runtime) healthy_api sample_event) []) ->
     exists payload, request.2 = PDict payload /\
       (forall k v, k <> "loras" -> k <> "prompt" ->
          sample_job_input !! k = Some v -> payload !! k = Some v) /\
       (List.filter (named_and_weighted) (descriptors sample_job_input) = [] ->
          payload !! "prompt" = sample_job_input !! "prompt")).
Proof.
  split; [reflexivity|].
  exact (proj1 (handler_keeps_caller_fields (H := marker_runtime)
                  healthy_api sample_event sample_job_input [] eq_refl)).
Defined.

Lemma forwarded_payload_keys_witness :
  (txt2img_url, PDict sample_payload) ∈
    posts (emitted (handler (H := marker_runtime) healthy_api sample_event) []) /\
  exists payload, PDict sample_payload = PDict payload /\
    payload !! "loras" = None /\
    Forall (fun k => is_Some (payload !! k)) defaulted_keys.
Proof.
  assert ((txt2img_url, PDict sample_payload) ∈
            posts (emitted (handler (H := marker_runtime) healthy_api sample_event) []))
    as Hin by (vm_compute; apply list_elem_of_here).
  split; [exact Hin|].
  exact (forwarded_payload_keys (H := marker_runtime) healthy_api sample_event []
           (txt2img_url, PDict sample_payload) Hin).
Defined.

Lemma sample_prepared :
  prepare_payload (H := marker_runtime) sample_event [] = (Ok sample_payload, sample_logs).
Proof. vm_compute. reflexivity. Qed.

Lemma sample_not_found :
  (run_sd_inference not_found_api sample_payload sample_logs).1 = Raise not_found_error.
Proof. vm_compute. reflexivity. Qed.



Lemma handler_no_application_retry_witness :
  prepare_payload (H := marker_runtime) sample_event [] = (Ok sample_payload, sample_logs) /\
  (run_sd_inference not_found_api sample_payload sample_logs).1 = Raise not_found_error /\
  posts (emitted (handler (H := marker_runtime) not_found_api sample_event) []) =
    [(full_api_url sample_payload, PDict sample_payload)].
Proof.
  split; [exact sample_prepared|]. split; [exact sample_not_found|].
  exact (proj1 (proj2 (handler_no_application_retry (H := marker_runtime)
                         not_found_api sample_event [] sample_payload sample_logs
                         not_found_error sample_prepared sample_not_found))).
Defined.

Lemma handler_single_call_no_state_witness :
  (forall em, healthy_api ([] ++ em) = healthy_api ([EvSleep 1] ++ em)) /\
  (handler (H := marker_runtime) healthy_api sample_event []).1 =
    (handler (H := marker_runtime) healthy_api sample_event [EvSleep 1]).1 /\
  emitted (handler (H := marker_runtime) healthy_api sample_event) [] =
    emitted (handler (H := marker_runtime) healthy_api sample_event) [EvSleep 1].
Proof.
  split; [reflexivity|].
  exact (proj2 (handler_single_call_no_state (H := marker_runtime) sample_event)
               healthy_api healthy_api [] [EvSleep 1] (fun em => eq_refl)).
Defined.

(** C2, as stated, fails: the transformed payload of this job has the key
    ["init_images"] (with an empty list), and the request goes to txt2img. *)
Lemma init_images_present_request_to_txt2img :
  transformed_payload (H := marker_runtime) empty_init_images_job !! "init_images" =
    Some (PList []) /\
  posts (emitted (handler (H := marker_runtime) healthy_api empty_init_images_event) []) =
    [(txt2img_url, PDict (transformed_payload (H := marker_runtime) empty_init_images_job))] /\
  txt2img_url <> img2img_url.
Proof. split; [reflexivity|]. split; [reflexivity|]. discriminate. Qed.


Lemma set_sd_model_checkpoint_verifies_by_read_back_witness :
  (forall tr e, switched_api tr = Raises e ->
     exn_class_of e = HTTPError -> is_Some (exn_response e)) /\
  exists rest,
    set_sd_model_checkpoint (H := marker_runtime) switched_api checkpoint_model_filename [] =
      (Ok tt, [] ++ switch_request checkpoint_model_filename ++ rest) /\
    forall line, EvPrint line ∈ rest -> reports_success line = true ->
      exists r d v,
        switched_api ([] ++ switch_request checkpoint_model_filename ++ read_back_request) =
          Responds r /\
        json r = JsonValue (PDict d) /\
        d !! "sd_model_checkpoint" = Some v /\
        truthy v = true /\ contains_name checkpoint_model_filename v = true /\
        line = success_line (H := marker_runtime) v.
Proof.
  assert (forall tr e, switched_api tr = Raises e ->
            exn_class_of e = HTTPError -> is_Some (exn_response e)) as Hyp
    by (intros tr e E; discriminate E).
  split; [exact Hyp|].
  exact (set_sd_model_checkpoint_verifies_by_read_back (H := marker_runtime)
           switched_api checkpoint_model_filename [] Hyp).
Defined.

(** The switch on [switched_api] is reported successful. *)
Example set_sd_model_checkpoint_reports_success :
  set_sd_model_checkpoint (H := marker_runtime) switched_api checkpoint_model_filename [] =
  (Ok tt,
   switch_request checkpoint_model_filename ++ read_back_request ++
   [EvPrint ("Successfully set SD model checkpoint. Current API reports: " +:+
             "Gemini_ILMixV5.safetensors [6a1b2c3d4e]")]).
Proof. reflexivity. Qed.

(** Sixteen refused checks, logged on attempts 1 and 15, then the check that
    succeeds. *)
Example wait_for_service_slow_start :
  wait_for_service slow_start_api 100 LOCAL_URL "AUTOMATIC1111 WebUI API" [] =
  (Ok true,
   [EvPrint (waiting_line LOCAL_URL "AUTOMATIC1111 WebUI API")] ++
   rounds "AUTOMATIC1111 WebUI API" 1
     (replicate 16 (Exn RequestException "ConnectionError" "connection refused" None)) ++
   ending "AUTOMATIC1111 WebUI API" true) /\
  List.filter is_print
    (rounds "AUTOMATIC1111 WebUI API" 1
       (replicate 16 (Exn RequestException "ConnectionError" "connection refused" None))) =
  [ EvPrint "AUTOMATIC1111 WebUI API not ready yet (attempt 1). Retrying... Error: ConnectionError";
    EvPrint "AUTOMATIC1111 WebUI API not ready yet (attempt 15). Retrying... Error: ConnectionError" ].
Proof. split; vm_compute; reflexivity. Qed.

Lemma handler_raises_only_on_malformed_input_witness :
  job_input_of malformed_event = Some (<["loras" := PInt 5]> ∅) /\
  (handler (H := marker_runtime) healthy_api malformed_event []).1 =
    Raise (interp_error (H := marker_runtime) "TypeError" "iter" (PInt 5)) /\
  well_formed_input (<["loras" := PInt 5]> ∅) = false /\
  posts (emitted (handler (H := marker_runtime) healthy_api malformed_event) []) = [].
Proof.
  split; [reflexivity|]. split; [reflexivity|].
  exact (handler_raises_only_on_malformed_input (H := marker_runtime) healthy_api
           malformed_event (<["loras" := PInt 5]> ∅) []
           (interp_error (H := marker_runtime) "TypeError" "iter" (PInt 5))
           eq_refl eq_refl).
Defined.

(** * Further properties *)

Section FurtherProperties.

Context `{PyRuntime}.

(** ** The job result, by what the API did *)



(** ** The inputs the handler accepts *)

Lemma for_each_lora_step_raises entries seg tr :
  forallb is_dict entries = false ->
  exists x tr',
    is_dict x = false /\
    for_each lora_step entries seg tr = (Raise (interp_error "AttributeError" "get" x), tr').
Proof.
  revert seg tr. induction entries as [|x rest IH]; intros seg tr Hf; [done|].
  rewrite for_each_cons. cbn [forallb] in Hf.
  destruct (is_dict x) eqn:Ex.
  - destruct x; try discriminate. rewrite lora_step_dict.
    destruct (named_and_weighted _); by apply IH.
  - exists x, tr. split; [done|]. by destruct x.
Qed.

(** The LoRA block yields a payload exactly on the accepted inputs; on the
    others it raises a [TypeError] or an [AttributeError]. *)
Lemma inject_loras_accepts (j : gmap string pyval) tr :
  match inject_loras (delete "loras" j) (default (PList []) (j !! "loras"))
          (default (PStr EmptyString) (delete "loras" j !! "prompt")) tr with
  | (Ok _, _) => accepted_input j = true
  | (Raise e, _) =>
      accepted_input j = false /\ exn_class_of e = OtherException /\
      (exn_type e = "TypeError" \/ exn_type e = "AttributeError")
  end.
Proof.
  rewrite lookup_delete_ne by done.
  unfold inject_loras, accepted_input.
  destruct (default (PList []) (j !! "loras")) as [|b|z|f|s|l|d] eqn:El; cbn [truthy].
  - done.
  - destruct b; [|done]. simpl. auto.
  - destruct (Z.eqb z 0); [done|]. simpl. auto.
  - destruct f; simpl; auto.
  - destruct (String.eqb_spec s EmptyString) as [->|Hs]; [done|]. cbn [negb].
    unfold bind at 1, py_iter, ret at 1. unfold bind at 1.
    destruct (for_each_lora_step_raises
      ((fun c => PStr (String c EmptyString)) <$> String.list_ascii_of_string s)
      EmptyString tr) as (x & tr' & _ & ->); [by apply forallb_is_dict_chars|].
    simpl. auto.
  - destruct l as [|x l]; [done|]. cbn [truthy].
    unfold bind at 1, py_iter, ret at 1. unfold bind at 1.
    destruct (forallb is_dict (x :: l)) eqn:Ed.
    + pose proof (for_each_lora_step (x :: l) EmptyString tr) as Hloop.
      rewrite Ed in Hloop. destruct Hloop as (tr' & ->).
      change (EmptyString +:+ tags_of (x :: l)) with (tags_of (x :: l)).
      destruct (String.eqb_spec (tags_of (x :: l)) EmptyString) as [Ht|Ht]; cbn [negb andb].
      * apply tags_of_empty in Ht. by rewrite Ht.
      * destruct (List.filter named_and_weighted (x :: l)) eqn:Ef.
        { by apply tags_of_empty in Ef. }
        unfold bind at 1, add_str.
        destruct (j !! "prompt") as [[]|]; simpl; auto.
    + destruct (for_each_lora_step_raises (x :: l) EmptyString tr Ed) as (y & tr' & _ & ->).
      simpl. auto.
  - destruct (Nat.eqb_spec (size d) 0) as [Hd|Hd]; [done|]. cbn [negb].
    unfold bind at 1, py_iter, ret at 1. unfold bind at 1.
    destruct (for_each_lora_step_raises
      ((fun kv : string * pyval => PStr kv.1) <$> map_to_list d) EmptyString tr)
      as (x & tr' & _ & ->); [by apply forallb_is_dict_keys|].
    simpl. auto.
Qed.

Lemma prepare_payload_accepts event j r logs :
  job_input_of event = Some j ->
  (forall tr, prepare_payload event tr = (r, tr ++ logs)) ->
  match r with
  | Ok _ => accepted_input j = true
  | Raise e =>
      accepted_input j = false /\ exn_class_of e = OtherException /\
      (exn_type e = "TypeError" \/ exn_type e = "AttributeError")
  end.
Proof.
  intros Hj E. specialize (E []).
  destruct event as [| | | | | |ev]; try discriminate. simpl in Hj.
  destruct (ev !! "input") as [[| | | | | |j']|] eqn:Ei; try discriminate.
  injection Hj as ->.
  unfold prepare_payload, subscript in E. rewrite Ei in E.
  unfold bind at 1, ret at 1, method_pop in E. unfold bind at 1, ret at 1 in E.
  cbn [fst snd] in E. unfold bind in E.
  pose proof (inject_loras_accepts j []) as Hs.
  destruct (inject_loras _ _ _ _) as [[p|e] tr'].
  - unfold ret in E. by injection E as <- _.
  - by injection E as <- _.
Qed.

(** X5: for an event that carries a job input, the handler returns a value
    exactly when the input is accepted: its ["loras"] entry is absent, falsy
    (of any type) or a list of dicts and, if some descriptor gets a tag, its
    prompt is absent or a string.  On every other input it raises a
    [TypeError] or an [AttributeError] of the interpreter, and no request has
    been sent. *)
Theorem handler_accepts_exactly api event job_input h :
  job_input_of event = Some job_input ->
  if accepted_input job_input
  then exists v, (handler api event h).1 = Ok v
  else exists e,
    (handler api event h).1 = Raise e /\
    exn_class_of e = OtherException /\
    (exn_type e = "TypeError" \/ exn_type e = "AttributeError") /\
    posts (emitted (handler api event) h) = [].
Proof.
  intros Hj.
  destruct (prints_only_prepare_payload event) as (r & logs & P & E).
  pose proof (prepare_payload_accepts event job_input r logs Hj E) as Ha.
  rewrite (handler_posts api event h r logs P E).
  rewrite (handler_run api event h r logs E).
  destruct r as [p|e].
  - rewrite Ha. destruct (inference_result _) as [v|e]; [by eexists|].
    destruct (handler_except_eq e) as (msg & line & ->). by eexists.
  - destruct Ha as (-> & Hc & Ht). by exists e.
Qed.

(** X6: an event without a dict under ["input"] makes the handler raise at
    once: nothing is printed and nothing is sent, whatever else the event
    holds. *)
Theorem handler_rejects_event_without_input api event h :
  job_input_of event = None ->
  exists e,
    handler api event h = (Raise e, h) /\
    exn_class_of e = OtherException /\
    (exn_type e = "KeyError" \/ exn_type e = "TypeError" \/ exn_type e = "AttributeError").
Proof.
  intros Hj. unfold handler, prepare_payload, subscript, method_pop.
  destruct event as [| | | | | |ev]; try (eexists; split; [reflexivity|]; simpl; auto).
  simpl in Hj. unfold bind.
  destruct (ev !! "input") as [[| | | | | |j]|]; try discriminate;
    eexists; (split; [reflexivity|]); simpl; auto.
Qed.

(** ** The forwarded payload, key by key *)

Lemma defaults_lookup k v :
  (k, v) ∈ defaults -> (list_to_map defaults : gmap string pyval) !! k = Some v.
Proof.
  intros Hin. apply elem_of_list_to_map_1; [|done].
  unfold defaults. cbn [fmap list_fmap fst].
  by apply (bool_decide_unpack _).
Qed.

Lemma defaults_lookup_inv k v :
  (list_to_map defaults : gmap string pyval) !! k = Some v -> k ∈ defaulted_keys.
Proof.
  intros Hk. apply elem_of_list_to_map_2 in Hk.
  unfold defaults in Hk. unfold defaulted_keys.
  repeat (apply elem_of_cons in Hk as [[= -> _]|Hk]; [set_solver|]).
  by apply elem_of_nil in Hk.
Qed.

Lemma move_loras_lookup_some j k :
  is_Some (move_loras_to_prompt j !! k) -> k <> "loras" /\ (is_Some (j !! k) \/ k = "prompt").
Proof.
  intros Hk. destruct (decide (k = "loras")) as [->|Hl].
  { rewrite move_loras_lookup_loras in Hk. by destruct Hk. }
  split; [done|]. destruct (decide (k = "prompt")) as [->|Hp]; [by right|].
  left. by rewrite move_loras_lookup_other in Hk.
Qed.

(** X7: in the payload that is forwarded, a defaulted parameter the caller
    left out has exactly its default value (20 steps, sampler "Euler a",
    cfg_scale 7.0, 512 by 512, seed -1, empty negative prompt), and there is no
    key that is neither a key of the job input other than ["loras"], nor
    ["prompt"], nor one of the seven defaulted parameters. *)
Theorem forwarded_payload_defaults_and_keys api event job_input h request :
  job_input_of event = Some job_input ->
  request ∈ posts (emitted (handler api event) h) ->
  exists payload, request.2 = PDict payload /\
    (forall k v, (k, v) ∈ defaults -> job_input !! k = None -> payload !! k = Some v) /\
    (forall k, is_Some (payload !! k) ->
       k <> "loras" /\ (is_Some (job_input !! k) \/ k = "prompt" \/ k ∈ defaulted_keys)).
Proof.
  intros Hj Hin. pose proof (handler_posts_cases api event h) as Hc. rewrite Hj in Hc.
  destruct Hc as [Hp | [Hp _]]; rewrite Hp in Hin; [|by apply elem_of_nil in Hin].
  apply list_elem_of_singleton in Hin. subst request.
  exists (transformed_payload job_input). split; [done|]. split.
  - intros k v Hd Hk. unfold transformed_payload. rewrite fill_defaults_lookup.
    assert (k <> "loras" /\ k <> "prompt") as [Hl Hp'].
    { unfold defaults in Hd.
      repeat (apply elem_of_cons in Hd as [[= -> _]|Hd]; [done|]). by apply elem_of_nil in Hd. }
    rewrite move_loras_lookup_other, Hk by done. by apply defaults_lookup.
  - intros k Hk. unfold transformed_payload in Hk. rewrite fill_defaults_lookup in Hk.
    destruct (move_loras_to_prompt job_input !! k) as [v|] eqn:Em.
    + destruct (move_loras_lookup_some job_input k) as [Hl Hor]; [by rewrite Em|].
      split; [done|]. destruct Hor; auto.
    + destruct Hk as [v Hk]. pose proof (defaults_lookup_inv k v Hk) as Hd.
      split; [|auto]. intros ->. unfold defaulted_keys in Hd. set_solver.
Qed.

(** X8: the preparation is idempotent.  The handler rewrites the job input in
    place, so an event met a second time carries the payload of the first
    run; preparing that payload again yields it unchanged, and prints
    nothing. *)
Theorem prepare_payload_idempotent event h payload h1 (rest : gmap string pyval) tr :
  prepare_payload event h = (Ok payload, h1) ->
  prepare_payload (PDict (<["input" := PDict payload]> rest)) tr = (Ok payload, tr).
Proof.
  intros E.
  destruct (prepare_payload_inv event h payload h1 E) as (logs & P & -> & Eall).
  destruct (job_input_of event) as [j|] eqn:Hj;
    [|by destruct (prepare_payload_no_input event _ logs Hj Eall)].
  pose proof (prepare_payload_spec event j _ logs Hj Eall) as Hp. cbn in Hp.
  assert (payload !! "loras" = None) as Hl.
  { subst payload. unfold transformed_payload.
    by rewrite fill_defaults_lookup, move_loras_lookup_loras. }
  unfold prepare_payload, subscript. rewrite lookup_insert_eq.
  unfold bind at 1, ret at 1, method_pop. unfold bind at 1, ret at 1. cbn [fst snd].
  rewrite Hl. cbn [default from_option id]. unfold inject_loras. cbn [truthy].
  unfold bind, ret. f_equal. f_equal.
  rewrite delete_id by done. apply map_eq. intros k.
  rewrite apply_defaults_lookup. destruct (payload !! k) as [v|] eqn:Ek; [done|].
  subst payload. unfold transformed_payload in Ek. rewrite fill_defaults_lookup in Ek.
  by destruct (move_loras_to_prompt j !! k).
Qed.

(** ** The readiness wait: what it sends, how much it logs, when it returns *)

Lemma rounds_polling service_name k failures :
  Forall is_polling_event (rounds service_name k failures).
Proof.
  revert k. induction failures as [|e rest IH]; intros k; [constructor|].
  cbn [rounds]. apply Forall_app. split; [|apply IH].
  unfold failed_round. apply Forall_cons. split; [right; by left|].
  apply Forall_app. split.
  - destruct (logs_attempt k); [|constructor].
    apply Forall_cons. split; [by left|constructor].
  - apply Forall_cons. split; [right; by right|constructor].
Qed.

Lemma posts_polling tr : Forall is_polling_event tr -> posts tr = [].
Proof.
  induction 1 as [|ev tr Hev _ IH]; [done|].
  destruct Hev as [Hp|[->| ->]]; [destruct ev; try discriminate|..]; exact IH.
Qed.

(** X9: [wait_for_service] never raises and never posts: besides printed
    lines, all it produces are GETs of the health URL under [LOCAL_URL] with a
    timeout of 10 seconds and sleeps of half a second.  The [url] argument only
    appears in the first printed line; it is never requested. *)
Theorem wait_for_service_only_polls api fuel target service_name h :
  exists returned,
    (wait_for_service api fuel target service_name h).1 = Ok returned /\
    Forall is_polling_event (emitted (wait_for_service api fuel target service_name) h) /\
    posts (emitted (wait_for_service api fuel target service_name) h) = [].
Proof.
  unfold wait_for_service, bind, print, emit.
  destruct (wait_loop_rounds api service_name fuel 0
              (h ++ [EvPrint ("Waiting for " +:+ service_name +:+ " at " +:+ target +:+
                              " to be ready...")]))
    as (returned & failures & Hrun & _).
  rewrite <- app_assoc in Hrun.
  assert (Forall is_polling_event
            ([EvPrint ("Waiting for " +:+ service_name +:+ " at " +:+ target +:+
                       " to be ready...")] ++
             rounds service_name (0 + 1) failures ++ ending service_name returned)) as Hall.
  { apply Forall_app. split; [apply Forall_cons; split; [by left|constructor]|].
    apply Forall_app. split; [apply rounds_polling|].
    destruct returned; [|constructor].
    apply Forall_cons. split; [right; by left|].
    apply Forall_cons. split; [by left|constructor]. }
  exists returned.
  unfold emitted, bind, print, emit. rewrite Hrun. cbn [fst snd].
  rewrite drop_app_length. split; [done|]. split; [exact Hall|].
  by apply posts_polling.
Qed.

Lemma div_15_step k :
  1 <= k -> k / 15 = (k - 1) / 15 + (if Z.eqb (k mod 15) 0 then 1 else 0).
Proof.
  intros Hk. destruct (Z.eqb_spec (k mod 15) 0) as [E|E];
    Z.to_euclidean_division_equations; lia.
Qed.

Lemma filter_length_app {A} (f : A -> bool) (l1 l2 : list A) :
  length (List.filter f (l1 ++ l2)) =
  (length (List.filter f l1) + length (List.filter f l2))%nat.
Proof. by rewrite List.filter_app, length_app. Qed.

Lemma failed_round_counts service_name k e :
  length (List.filter is_print (failed_round service_name k e)) =
    (if logs_attempt k then 1 else 0)%nat /\
  length (List.filter is_sleep (failed_round service_name k e)) = 1%nat /\
  length (List.filter is_get (failed_round service_name k e)) = 1%nat.
Proof. unfold failed_round. by destruct (logs_attempt k). Qed.

Lemma rounds_counts service_name k failures :
  2 <= k ->
  Z.of_nat (length (List.filter is_print (rounds service_name k failures))) =
    (k + Z.of_nat (length failures) - 1) / 15 - (k - 1) / 15 /\
  length (List.filter is_sleep (rounds service_name k failures)) = length failures /\
  length (List.filter is_get (rounds service_name k failures)) = length failures.
Proof.
  revert k. induction failures as [|e rest IH]; intros k Hk.
  - cbn [rounds List.filter length]. split; [|done].
    change (Z.of_nat 0) with 0. rewrite Z.add_0_r. lia.
  - cbn [rounds]. rewrite !filter_length_app.
    destruct (failed_round_counts service_name k e) as (-> & -> & ->).
    destruct (IH (k + 1)) as (Hp & -> & ->); [lia|]. split; [|done].
    rewrite Nat2Z.inj_add, Hp. cbn [length].
    replace (k + 1 + Z.of_nat (length rest) - 1) with (k + Z.of_nat (S (length rest)) - 1) by lia.
    replace (k + 1 - 1) with k by lia.
    rewrite (div_15_step k) by lia. unfold logs_attempt, log_interval.
    destruct (Z.eqb_spec k 1) as [->|_]; [lia|]. cbn [orb].
    destruct (Z.eqb (k mod 15) 0); simpl; lia.
Qed.

Lemma rounds_from_one_counts service_name failures :
  Z.of_nat (length (List.filter is_print (rounds service_name 1 failures))) =
    log_lines (Z.of_nat (length failures)) /\
  length (List.filter is_sleep (rounds service_name 1 failures)) = length failures /\
  length (List.filter is_get (rounds service_name 1 failures)) = length failures.
Proof.
  destruct failures as [|e rest]; [done|].
  cbn [rounds]. rewrite !filter_length_app.
  destruct (failed_round_counts service_name 1 e) as (-> & -> & ->).
  destruct (rounds_counts service_name (1 + 1) rest) as (Hp & -> & ->); [lia|].
  split; [|done]. rewrite Nat2Z.inj_add, Hp. unfold log_lines. cbn [length logs_attempt].
  destruct (Z.eqb_spec (Z.of_nat (S (length rest))) 0) as [E|_]; [lia|].
  change (logs_attempt 1) with true. cbn [Z.of_nat Pos.of_succ_nat].
  replace (1 + 1 + Z.of_nat (length rest) - 1) with (Z.of_nat (S (length rest))) by lia.
  change ((1 + 1 - 1) / 15) with 0. lia.
Qed.

(** X10: a wait that met [n] failed checks has slept [n] times, has sent [n]
    GETs and one more if it returned, and has printed, besides its opening
    line and the final "is ready" line, no "not ready" line for [n = 0] and
    [1 + n / 15] of them otherwise. *)
Theorem wait_for_service_counts api fuel target service_name h :
  exists returned n,
    (wait_for_service api fuel target service_name h).1 = Ok returned /\
    (if returned then n < Z.of_nat fuel else n = Z.of_nat fuel) /\
    let added := emitted (wait_for_service api fuel target service_name) h in
    Z.of_nat (length (List.filter is_sleep added)) = n /\
    Z.of_nat (length (List.filter is_get added)) = n + (if returned then 1 else 0) /\
    Z.of_nat (length (List.filter is_print added)) =
      1 + log_lines n + (if returned then 1 else 0).
Proof.
  unfold wait_for_service, bind, print, emit.
  destruct (wait_loop_rounds api service_name fuel 0
              (h ++ [EvPrint ("Waiting for " +:+ service_name +:+ " at " +:+ target +:+
                              " to be ready...")]))
    as (returned & failures & Hrun & _ & _ & Hlen).
  rewrite <- app_assoc in Hrun. change (0 + 1) with 1 in Hrun.
  exists returned, (Z.of_nat (length failures)).
  unfold emitted, bind, print, emit. rewrite Hrun. cbn [fst snd].
  rewrite drop_app_length. split; [done|]. split; [destruct returned; lia|].
  cbv zeta. rewrite !filter_length_app.
  destruct (rounds_from_one_counts service_name failures) as (Hp & -> & ->).
  rewrite !Nat2Z.inj_add, Hp. destruct returned; simpl; lia.
Qed.

Lemma wait_loop_more_fuel api service_name fuel fuel' n tr tr' :
  wait_loop api service_name fuel n tr = (Ok true, tr') ->
  (fuel <= fuel')%nat ->
  wait_loop api service_name fuel' n tr = (Ok true, tr').
Proof.
  revert fuel' n tr. induction fuel as [|fuel IH]; intros fuel' n tr Hrun Hle; [done|].
  destruct fuel' as [|fuel']; [lia|].
  cbn [wait_loop] in *. unfold bind at 1 in Hrun. unfold bind at 1.
  rewrite wait_iteration_eq in *.
  destruct (health_failure _) as [e|]; [|done].
  apply IH; [done|lia].
Qed.

(** X11: the bound on the number of checks only cuts runs that have not
    returned.  A wait that returns within some bound returns, with the same
    trace, under every larger bound: when the health endpoint comes to answer,
    the loop of the source ends there. *)
Theorem wait_for_service_returns_for_good api fuel fuel' target service_name h tr :
  wait_for_service api fuel target service_name h = (Ok true, tr) ->
  (fuel <= fuel')%nat ->
  wait_for_service api fuel' target service_name h = (Ok true, tr).
Proof.
  unfold wait_for_service, bind, print, emit. intros Hrun Hle.
  by apply (wait_loop_more_fuel api service_name fuel fuel').
Qed.

(** ** The checkpoint switch: its requests and its one way out *)

Lemma set_checkpoint_except_cases model e :
  exists lines,
    forall tr,
      set_checkpoint_except model e tr =
      if is_bare_http_error e
      then (Raise (interp_error "AttributeError" "status_code" PNone), tr)
      else (Ok tt, tr ++ (EvPrint <$> lines)).
Proof.
  unfold set_checkpoint_except, is_bare_http_error.
  destruct (exn_class_of e).
  - destruct (exn_response e) as [r|].
    + eexists [_; _]. intros tr. unfold bind, print, emit. by rewrite <- app_assoc.
    + by exists [].
  - by eexists [_].
  - by eexists [_].
Qed.

Lemma posts_print_lines lines : posts (EvPrint <$> lines) = [].
Proof. by induction lines. Qed.

(** What reaches the [except] clauses, or the lines of the verdict. *)
Lemma set_checkpoint_body_outcome api model tr :
  let sent :=
    tr ++ [EvPost options_url (PDict {[ "sd_model_checkpoint" := PStr model ]}) 60] in
  exists r lines,
    set_checkpoint_body api model tr =
      (r, sent ++
          (match api sent with
           | Responds r1 => if is_error_status r1 then [] else read_back_request
           | Raises _ => []
           end) ++ (EvPrint <$> lines)) /\
    (forall e, r = Raise e -> lines = []) /\
    (forall e, r = Raise e -> is_bare_http_error e = true ->
       api sent = Raises e \/ api (sent ++ read_back_request) = Raises e).
Proof.
  cbv zeta. rewrite set_checkpoint_body_eq. cbv zeta.
  destruct (api (tr ++ _)) as [e|r1] eqn:E1.
  - exists (Raise e), []. rewrite !app_nil_r. split; [done|]. split; [done|].
    intros e' [= ->] _. by left.
  - destruct (is_error_status r1).
    + eexists (Raise _), []. rewrite !app_nil_r. split; [done|]. split; [done|].
      intros e' [= <-] Hb. discriminate Hb.
    + destruct (api (_ ++ read_back_request)) as [e|r2] eqn:E2.
      * exists (Raise e), []. rewrite !app_nil_r. split; [done|]. split; [done|].
        intros e' [= ->] _. by right.
      * destruct (json r2) as [cur|wrapped msg].
        -- destruct (verdict_cases model cur
                       ((tr ++ [EvPost options_url
                                  (PDict {[ "sd_model_checkpoint" := PStr model ]}) 60]) ++
                        read_back_request))
             as [(e & -> & He) | [(lines & -> & _) | (d & v & _ & _ & _ & _ & ->)]].
           ++ exists (Raise e), []. rewrite !app_nil_r. split; [done|]. split; [done|].
              intros e' [= ->] Hb. unfold is_bare_http_error in Hb. by rewrite He in Hb.
           ++ exists (Ok tt), lines. rewrite <- !app_assoc. by repeat split.
           ++ exists (Ok tt), [success_line v]. rewrite <- !app_assoc. by repeat split.
        -- eexists (Raise _), []. rewrite !app_nil_r. split; [done|]. split; [done|].
           intros e' [= <-] Hb. by destruct wrapped.
Qed.

Lemma set_sd_model_checkpoint_run api model h :
  exists r lines,
    set_sd_model_checkpoint api model h =
      (r, h ++ switch_request model ++
          (match api (h ++ switch_request model) with
           | Responds r1 => if is_error_status r1 then [] else read_back_request
           | Raises _ => []
           end) ++ (EvPrint <$> lines)) /\
    (forall e', r = Raise e' ->
       exists e, is_bare_http_error e = true /\
         (api (h ++ switch_request model) = Raises e \/
          api (h ++ switch_request model ++ read_back_request) = Raises e)).
Proof.
  unfold set_sd_model_checkpoint, bind at 1, print at 1, emit, try_except.
  destruct (set_checkpoint_body_outcome api model
              (h ++ [EvPrint ("Attempting to set SD model checkpoint to: " +:+ model)]))
    as (r & lines & Hrun & Hquiet & Hbare). cbv zeta in *.
  replace ((h ++ [EvPrint ("Attempting to set SD model checkpoint to: " +:+ model)]) ++
           [EvPost options_url (PDict {[ "sd_model_checkpoint" := PStr model ]}) 60])
    with (h ++ switch_request model) in *
    by (unfold switch_request; by rewrite <- app_assoc).
  rewrite Hrun. destruct r as [[]|e].
  - exists (Ok tt), lines. split; [by rewrite <- !app_assoc|]. done.
  - rewrite (Hquiet e eq_refl) in *. cbn [fmap list_fmap] in *.
    destruct (set_checkpoint_except_cases model e) as (lines' & Hx). rewrite Hx.
    destruct (is_bare_http_error e) eqn:Hb.
    + exists (Raise (interp_error "AttributeError" "status_code" PNone)), [].
      split; [by rewrite <- !app_assoc|].
      intros e' _. exists e. split; [done|].
      destruct (Hbare e eq_refl Hb) as [Hp|Hg]; [by left|right].
      by rewrite <- app_assoc in Hg.
    + exists (Ok tt), lines'. split; [|done]. by rewrite app_nil_r, <- !app_assoc.
Qed.

(** X12: whatever the service does, [set_sd_model_checkpoint] sends exactly
    one POST, the switch request; it reads the configuration back (one sleep
    of a second, one GET) only when that POST was answered with a status that
    is no error; everything else it adds is printed lines.  It raises in one
    case only: a call on the session raised an [HTTPError] that carries no
    response. *)
Theorem set_sd_model_checkpoint_requests api model h :
  exists r lines,
    set_sd_model_checkpoint api model h =
      (r, h ++ switch_request model ++
          (match api (h ++ switch_request model) with
           | Responds r1 => if is_error_status r1 then [] else read_back_request
           | Raises _ => []
           end) ++ (EvPrint <$> lines)) /\
    posts (emitted (set_sd_model_checkpoint api model) h) =
      [(options_url, PDict {[ "sd_model_checkpoint" := PStr model ]})] /\
    (forall e', r = Raise e' ->
       exists e, is_bare_http_error e = true /\
         (api (h ++ switch_request model) = Raises e \/
          api (h ++ switch_request model ++ read_back_request) = Raises e)).
Proof.
  destruct (set_sd_model_checkpoint_run api model h) as (r & lines & Hrun & Hraise).
  exists r, lines. split; [exact Hrun|]. split; [|exact Hraise].
  rewrite (emitted_eq _ _ _ _ Hrun), !posts_app, posts_print_lines.
  destruct (api _) as [e|r1]; [done|]. by destruct (is_error_status r1).
Qed.

Lemma string_prefix_app (needle rest : string) : String.prefix needle (needle +:+ rest) = true.
Proof.
  induction needle as [|c needle IH]; [by destruct rest|].
  change (String c needle +:+ rest) with (String c (needle +:+ rest)).
  cbn [String.prefix]. by destruct (Ascii.ascii_dec c c).
Qed.

Lemma str_contains_unfold needle hay :
  str_contains needle hay =
  String.prefix needle hay ||
  match hay with
  | EmptyString => false
  | String _ rest => str_contains needle rest
  end.
Proof. by destruct hay. Qed.

(** A name is found in every title that has it as a part. *)
Lemma str_contains_app (needle before after : string) :
  str_contains needle (before +:+ needle +:+ after) = true.
Proof.
  induction before as [|c before IH].
  - change (EmptyString +:+ needle +:+ after) with (needle +:+ after).
    by rewrite str_contains_unfold, string_prefix_app.
  - change (String c before +:+ needle +:+ after)
      with (String c (before +:+ needle +:+ after)).
    rewrite str_contains_unfold, IH. apply orb_true_r.
Qed.

(** X13: when the switch request is accepted and the configuration read back
    names, under ["sd_model_checkpoint"], a title that has the requested name
    as a part (as a title with a hash appended does), the switch is reported
    successful and the function returns.  The status of the read-back response
    plays no part: its body is decoded whatever the status. *)
Theorem set_sd_model_checkpoint_reports_matching_title api model h r1 r2 d before after :
  api (h ++ switch_request model) = Responds r1 ->
  is_error_status r1 = false ->
  api (h ++ switch_request model ++ read_back_request) = Responds r2 ->
  json r2 = JsonValue (PDict d) ->
  d !! "sd_model_checkpoint" = Some (PStr (before +:+ model +:+ after)) ->
  before +:+ model +:+ after <> EmptyString ->
  set_sd_model_checkpoint api model h =
    (Ok tt,
     h ++ switch_request model ++ read_back_request ++
     [EvPrint ("Successfully set SD model checkpoint. Current API reports: " +:+
               before +:+ model +:+ after)]).
Proof.
  intros E1 Hs E2 Hj Hd Hne.
  unfold set_sd_model_checkpoint, bind at 1, print at 1, emit, try_except.
  rewrite set_checkpoint_body_eq. cbv zeta.
  replace ((h ++ [EvPrint ("Attempting to set SD model checkpoint to: " +:+ model)]) ++
           [EvPost options_url (PDict {[ "sd_model_checkpoint" := PStr model ]}) 60])
    with (h ++ switch_request model)
    by (unfold switch_request; by rewrite <- app_assoc).
  rewrite E1, Hs, <- app_assoc, E2, Hj.
  unfold verdict, method_get, bind, ret. rewrite Hd. cbn [default from_option id truthy].
  destruct (String.eqb_spec (before +:+ model +:+ after) EmptyString) as [E|_]; [done|].
  cbn [negb str_in]. unfold ret. rewrite str_contains_app.
  unfold print, emit, success_line. cbn [py_format]. by rewrite <- !app_assoc.
Qed.

(** ** Start-up *)

Lemma posts_read_back_if (answer : http_outcome) :
  posts (match answer with
         | Responds r1 => if is_error_status r1 then [] else read_back_request
         | Raises _ => []
         end) = [].
Proof. destruct answer as [e|r1]; [done|]. by destruct (is_error_status r1). Qed.

(** X14: the start-up posts nothing while the service is not ready, and once
    a health check has been answered with a status that is no error it sends
    one POST, the switch to the checkpoint "Gemini_ILMixV5.safetensors", after
    that check.  When the switch does not raise, the last thing added is the
    line that announces the worker. *)
Theorem main_switches_after_ready api fuel h :
  exists returned failures,
    let waited :=
      [ EvPrint starting_line;
        EvPrint (waiting_line LOCAL_URL "AUTOMATIC1111 WebUI API") ] ++
      rounds "AUTOMATIC1111 WebUI API" 1 failures ++
      ending "AUTOMATIC1111 WebUI API" returned in
    if returned then
      (exists r1,
         api (h ++ [ EvPrint starting_line;
                     EvPrint (waiting_line LOCAL_URL "AUTOMATIC1111 WebUI API") ] ++
              rounds "AUTOMATIC1111 WebUI API" 1 failures ++ [health_get]) = Responds r1 /\
         is_error_status r1 = false) /\
      exists r rest,
        main api fuel h =
          (r, h ++ waited ++ switch_request checkpoint_model_filename ++ rest) /\
        posts rest = [] /\
        ((exists e, r = Raise e) \/
         r = Ok true /\ exists rest', rest = rest' ++ [EvPrint setup_complete_line])
    else
      main api fuel h = (Ok false, h ++ waited) /\ posts waited = [].
Proof.
  destruct (wait_loop_rounds api "AUTOMATIC1111 WebUI API" fuel 0
              ((h ++ [EvPrint starting_line]) ++
               [EvPrint (waiting_line LOCAL_URL "AUTOMATIC1111 WebUI API")]))
    as (returned & failures & Hrun & Hok & _ & _).
  change (0 + 1) with 1 in *.
  exists returned, failures. cbv zeta.
  assert (Hwait : wait_for_service api fuel LOCAL_URL "AUTOMATIC1111 WebUI API"
                    (h ++ [EvPrint starting_line]) =
                  (Ok returned,
                   ((h ++ [EvPrint starting_line]) ++
                    [EvPrint (waiting_line LOCAL_URL "AUTOMATIC1111 WebUI API")]) ++
                   rounds "AUTOMATIC1111 WebUI API" 1 failures ++
                   ending "AUTOMATIC1111 WebUI API" returned)).
  { unfold wait_for_service, bind at 1, print at 1, emit.
    unfold waiting_line in *. by rewrite Hrun. }
  assert (Hmain : main api fuel h =
                  (if returned
                   then set_sd_model_checkpoint api checkpoint_model_filename ;;
                        print setup_complete_line ;; ret true
                   else ret false)
                    (((h ++ [EvPrint starting_line]) ++
                      [EvPrint (waiting_line LOCAL_URL "AUTOMATIC1111 WebUI API")]) ++
                     rounds "AUTOMATIC1111 WebUI API" 1 failures ++
                     ending "AUTOMATIC1111 WebUI API" returned)).
  { unfold main, bind at 1, print at 1, emit. unfold bind at 1.
    unfold starting_line in Hwait. by rewrite Hwait. }
  rewrite Hmain. clear Hmain Hwait Hrun.
  destruct returned.
  - split.
    { destruct (Hok eq_refl) as (r1 & Ha & Hs). exists r1. split; [|done].
      by rewrite <- !app_assoc in Ha. }
    unfold bind at 1.
    destruct (set_sd_model_checkpoint_run api checkpoint_model_filename
                (((h ++ [EvPrint starting_line]) ++
                  [EvPrint (waiting_line LOCAL_URL "AUTOMATIC1111 WebUI API")]) ++
                 rounds "AUTOMATIC1111 WebUI API" 1 failures ++
                 ending "AUTOMATIC1111 WebUI API" true))
      as (r & lines & Hsw & _).
    rewrite Hsw.
    set (asked := match api _ with
                  | Responds r1 => if is_error_status r1 then [] else read_back_request
                  | Raises _ => []
                  end).
    assert (Hasked : posts asked = []) by apply posts_read_back_if.
    clearbody asked.
    destruct r as [[]|e].
    + exists (Ok true), (asked ++ (EvPrint <$> lines) ++ [EvPrint setup_complete_line]).
      split; [|split].
      * unfold bind, print, emit, ret. by rewrite <- !app_assoc.
      * by rewrite !posts_app, Hasked, posts_print_lines.
      * right. split; [done|]. exists (asked ++ (EvPrint <$> lines)).
        by rewrite <- !app_assoc.
    + exists (Raise e), (asked ++ (EvPrint <$> lines)). split; [|split].
      * by rewrite <- !app_assoc.
      * by rewrite !posts_app, Hasked, posts_print_lines.
      * left. by exists e.
  - split; [unfold ret; by rewrite <- !app_assoc|].
    apply posts_polling. apply Forall_app. split.
    + apply Forall_cons. split; [by left|].
      apply Forall_cons. split; [by left|constructor].
    + apply Forall_app. split; [apply rounds_polling|constructor].
Qed.

(** ** What the preparation prints *)

Lemma for_each_lora_step_lines entries seg tr :
  forallb is_dict entries = true ->
  for_each lora_step entries seg tr =
  (Ok (seg +:+ tags_of entries),
   tr ++ (EvPrint <$> (skipped_warning <$>
            List.filter (fun d => negb (named_and_weighted d)) entries))).
Proof.
  revert seg tr. induction entries as [|x rest IH]; intros seg tr Hd.
  - simpl. unfold ret, tags_of. simpl. by rewrite append_nil_r, app_nil_r.
  - cbn [forallb] in Hd. apply andb_prop in Hd as [Hx Hrest].
    destruct x; try discriminate.
    rewrite for_each_cons, lora_step_dict, tags_of_cons. cbn [List.filter].
    destruct (named_and_weighted (PDict d)); cbn [negb].
    + rewrite IH by done. by rewrite append_assoc.
    + rewrite IH by done. cbn [fmap list_fmap]. by rewrite <- app_assoc.
Qed.

(** X15: on a well-formed job input the preparation yields the transformed
    payload and prints exactly one warning for every descriptor that gets no
    tag, in the order of the list, followed by the line with the new prompt
    when a tag was appended; with no descriptors it prints nothing. *)
Theorem prepare_payload_on_well_formed_input event job_input h :
  job_input_of event = Some job_input ->
  well_formed_input job_input = true ->
  prepare_payload event h =
    (Ok (transformed_payload job_input), h ++ (EvPrint <$> prepared_lines job_input)).
Proof.
  intros Hj Hwf.
  destruct event as [| | | | | |ev]; try discriminate. simpl in Hj.
  destruct (ev !! "input") as [[| | | | | |j']|] eqn:Ei; try discriminate.
  injection Hj as ->.
  unfold prepare_payload, subscript. rewrite Ei.
  unfold bind at 1, ret at 1, method_pop. unfold bind at 1, ret at 1. cbn [fst snd].
  rewrite lookup_delete_ne by done.
  unfold transformed_payload. rewrite <- apply_defaults_fill.
  unfold well_formed_input in Hwf. apply andb_prop in Hwf as [Hl Hp].
  unfold inject_loras, move_loras_to_prompt, prepared_lines, descriptors, prompt_string.
  destruct (job_input !! "loras") as [loras|] eqn:El; cbn [default from_option id].
  - destruct loras as [| | | | |l|]; try discriminate.
    destruct l as [|x l]; cbn [truthy].
    { unfold bind, ret. by rewrite app_nil_r. }
    unfold bind at 1. unfold bind at 1, py_iter, ret at 1. unfold bind at 1.
    rewrite for_each_lora_step_lines by done.
    change (EmptyString +:+ tags_of (x :: l)) with (tags_of (x :: l)).
    destruct (String.eqb_spec (tags_of (x :: l)) EmptyString) as [Ht|Ht]; cbn [negb].
    + apply tags_of_empty in Ht. rewrite Ht. unfold ret. by rewrite app_nil_r.
    + destruct (List.filter named_and_weighted (x :: l)) eqn:Ef.
      { by apply tags_of_empty in Ef. }
      unfold bind at 1, add_str.
      destruct (job_input !! "prompt") as [[]|]; try discriminate;
        cbn [default from_option id]; unfold ret at 1, bind, print, emit, ret;
        cbn [py_format]; by rewrite <- app_assoc, fmap_app.
  - cbn [truthy]. unfold bind, ret. by rewrite app_nil_r.
Qed.

End FurtherProperties.

(** * Further concrete runs *)

Lemma handler_accepts_exactly_witness :
  job_input_of null_loras_event = Some null_loras_job /\
  accepted_input null_loras_job = true /\
  well_formed_input null_loras_job = false /\
  (exists v, (handler (H := marker_runtime) healthy_api null_loras_event []).1 = Ok v) /\
  job_input_of null_prompt_event = Some null_prompt_job /\
  accepted_input null_prompt_job = false /\
  (handler (H := marker_runtime) healthy_api null_prompt_event []).1 =
    Raise (interp_error (H := marker_runtime) "TypeError" "add" PNone).
Proof.
  split; [reflexivity|]. split; [reflexivity|]. split; [reflexivity|]. split.
  - exact (handler_accepts_exactly (H := marker_runtime) healthy_api null_loras_event
             null_loras_job [] eq_refl).
  - repeat split; reflexivity.
Defined.

Lemma handler_rejects_event_without_input_witness :
  job_input_of empty_event = None /\
  exists e,
    handler (H := marker_runtime) healthy_api empty_event [] = (Raise e, []) /\
    exn_class_of e = OtherException /\
    (exn_type e = "KeyError" \/ exn_type e = "TypeError" \/ exn_type e = "AttributeError").
Proof.
  split; [reflexivity|].
  exact (handler_rejects_event_without_input (H := marker_runtime) healthy_api
           empty_event [] eq_refl).
Defined.

Lemma sample_post :
  (txt2img_url, PDict sample_payload) ∈
    posts (emitted (handler (H := marker_runtime) healthy_api sample_event) []).
Proof. vm_compute. apply list_elem_of_here. Qed.

Lemma forwarded_payload_defaults_and_keys_witness :
  job_input_of sample_event = Some sample_job_input /\
  (txt2img_url, PDict sample_payload) ∈
    posts (emitted (handler (H := marker_runtime) healthy_api sample_event) []) /\
  sample_payload !! "seed" = Some (PInt (-1)) /\
  sample_payload !! "steps" = Some (PInt 30) /\
  exists payload, PDict sample_payload = PDict payload /\
    (forall k v, (k, v) ∈ defaults -> sample_job_input !! k = None -> payload !! k = Some v) /\
    (forall k, is_Some (payload !! k) ->
       k <> "loras" /\
       (is_Some (sample_job_input !! k) \/ k = "prompt" \/ k ∈ defaulted_keys)).
Proof.
  split; [reflexivity|]. split; [exact sample_post|].
  split; [reflexivity|]. split; [reflexivity|].
  exact (forwarded_payload_defaults_and_keys (H := marker_runtime) healthy_api sample_event
           sample_job_input [] (txt2img_url, PDict sample_payload) eq_refl sample_post).
Defined.

Lemma prepare_payload_idempotent_witness :
  prepare_payload (H := marker_runtime) sample_event [] = (Ok sample_payload, sample_logs) /\
  sample_logs <> [] /\
  prepare_payload (H := marker_runtime)
    (PDict (<["input" := PDict sample_payload]> (<["id" := PStr "job-1"]> ∅))) [] =
    (Ok sample_payload, []).
Proof.
  split; [exact sample_prepared|]. split; [discriminate|].
  exact (prepare_payload_idempotent (H := marker_runtime) sample_event [] sample_payload
           sample_logs (<["id" := PStr "job-1"]> ∅) [] sample_prepared).
Defined.

Lemma slow_start_returns :
  wait_for_service slow_start_api 17 LOCAL_URL "AUTOMATIC1111 WebUI API" [] =
  (Ok true, slow_start_trace).
Proof. vm_compute. reflexivity. Qed.

Lemma wait_for_service_returns_for_good_witness :
  wait_for_service slow_start_api 17 LOCAL_URL "AUTOMATIC1111 WebUI API" [] =
    (Ok true, slow_start_trace) /\
  (17 <= 100)%nat /\
  wait_for_service slow_start_api 100 LOCAL_URL "AUTOMATIC1111 WebUI API" [] =
    (Ok true, slow_start_trace).
Proof.
  assert (17 <= 100)%nat as Hle by lia.
  split; [exact slow_start_returns|]. split; [exact Hle|].
  exact (wait_for_service_returns_for_good slow_start_api 17 100 LOCAL_URL
           "AUTOMATIC1111 WebUI API" [] slow_start_trace slow_start_returns Hle).
Defined.

Lemma set_sd_model_checkpoint_reports_matching_title_witness :
  is_error_status
    (Response 500 "Internal Server Error" options_url "{}"
       (JsonValue (PDict {[ "sd_model_checkpoint" :=
                              PStr "Gemini_ILMixV5.safetensors [6a1b2c3d4e]" ]}))) = true /\
  set_sd_model_checkpoint (H := marker_runtime) failing_read_back_api
    checkpoint_model_filename [] =
    (Ok tt,
     [] ++ switch_request checkpoint_model_filename ++ read_back_request ++
     [EvPrint ("Successfully set SD model checkpoint. Current API reports: " +:+
               EmptyString +:+ checkpoint_model_filename +:+ " [6a1b2c3d4e]")]).
Proof.
  split; [reflexivity|].
  apply (set_sd_model_checkpoint_reports_matching_title (H := marker_runtime)
           failing_read_back_api checkpoint_model_filename []
           (Response 200 "OK" LOCAL_URL "{}" (JsonValue (PDict ∅)))
           (Response 500 "Internal Server Error" options_url "{}"
              (JsonValue (PDict {[ "sd_model_checkpoint" :=
                                     PStr "Gemini_ILMixV5.safetensors [6a1b2c3d4e]" ]})))
           {[ "sd_model_checkpoint" := PStr "Gemini_ILMixV5.safetensors [6a1b2c3d4e]" ]}
           EmptyString " [6a1b2c3d4e]");
    [reflexivity|reflexivity|reflexivity|reflexivity|reflexivity|discriminate].
Defined.

Lemma prepare_payload_on_well_formed_input_witness :
  job_input_of sample_event = Some sample_job_input /\
  well_formed_input sample_job_input = true /\
  prepared_lines (H := marker_runtime) sample_job_input =
    [ "Warning: Invalid or incomplete LoRA entry skipped: <value>";
      "Prompt modified with LoRAs. New prompt: " +:+ dquote +:+
      "a cat <lora:detail:1>" +:+ dquote ] /\
  prepare_payload (H := marker_runtime) sample_event [] =
    (Ok (transformed_payload (H := marker_runtime) sample_job_input),
     [] ++ (EvPrint <$> prepared_lines (H := marker_runtime) sample_job_input)).
Proof.
  split; [reflexivity|]. split; [reflexivity|]. split; [reflexivity|].
  exact (prepare_payload_on_well_formed_input (H := marker_runtime) sample_event
           sample_job_input [] eq_refl eq_refl).
Defined.
